(** * vite-mini: the module resolution and transform pipeline

    A shallow embedding of [packages/vite-mini/index.js]: the import
    rewriters [resolveImports] and [rewriteImports], the bare module
    resolver [resolveBareModule], the pre-bundle cache [optimizeDep], the
    single-file-component splitter of the [.vue] branch, and the Koa
    middleware that dispatches on the request URL.

    The libraries the program calls (es-module-lexer, esbuild,
    @vue/compiler-sfc, JSON, the file system) are collaborators: they
    appear as fields of [Collaborators] (pure ones) and [World] (the ones
    that read the outside world), and every theorem quantifies over them.
    [node:path] and the part of magic-string the program uses are modelled
    for POSIX hosts.

    Conventions. A string is a sequence of code units, and offsets count
    code units. An [async] function is a computation in [M]: it threads the
    server state, and a rejected promise is a [Throw]. The state records,
    besides [depCache], the trace of what the program did that the outside
    can see (file reads, bundler calls, console lines) and of its tests of
    the cache. A [Context] holds the fields the middleware has assigned
    when it returns.
    [optimizeDep] is cut at its [await], so that activations for several
    requests can be interleaved.

    The handler of the [.vue] branch and [resolveImports] have the same
    text in the earlier revision of the server kept beside [index.js]. *)

From Stdlib Require Import ZArith Ascii String List Lia Bool.
From stdpp Require Import gmap strings list.

Local Open Scope string_scope.
Local Set Warnings "-register-all".

(** ** JavaScript strings *)

Module JsString.

Fixpoint take (k : nat) (s : string) : string :=
  match k, s with
  | S k', String c s' => String c (take k' s')
  | _, _ => EmptyString
  end.

Fixpoint drop (k : nat) (s : string) : string :=
  match k, s with
  | S k', String _ s' => drop k' s'
  | _, _ => s
  end.

(** [s.slice(a, b)] and [s.slice(a)] for non-negative offsets. *)
Definition slice (s : string) (a b : nat) : string := take (b - a) (drop a s).
Definition slice_from (s : string) (a : nat) : string := drop a s.

(** [s.substring(a, b)]: the arguments are swapped when [a > b]. *)
Definition substring (s : string) (a b : nat) : string :=
  slice s (Nat.min a b) (Nat.max a b).

Fixpoint startsWith (s p : string) : bool :=
  match p, s with
  | EmptyString, _ => true
  | String a p', String b s' => Ascii.eqb a b && startsWith s' p'
  | String _ _, EmptyString => false
  end.

Definition endsWith (s p : string) : bool :=
  let ls := String.length s in
  let lp := String.length p in
  (lp <=? ls)%nat && String.eqb (drop (ls - lp) s) p.

Fixpoint indexOf_from (i : nat) (s p : string) : Z :=
  if startsWith s p then Z.of_nat i
  else match s with
       | EmptyString => (-1)%Z
       | String _ s' => indexOf_from (S i) s' p
       end.

Definition indexOf (s p : string) : Z := indexOf_from 0 s p.

(** [s.replace(/\\/g, "/")] *)
Fixpoint backslashes_to_slashes (s : string) : string :=
  match s with
  | EmptyString => EmptyString
  | String c s' =>
      String (if Ascii.eqb c "\"%char then "/"%char else c)
             (backslashes_to_slashes s')
  end.

Fixpoint join (sep : string) (l : list string) : string :=
  match l with
  | [] => EmptyString
  | [x] => x
  | x :: l' => x ++ sep ++ join sep l'
  end.

(** [s.split("/")] *)
Fixpoint split_slash (s : string) : list string :=
  match s with
  | EmptyString => [EmptyString]
  | String c s' =>
      if Ascii.eqb c "/"%char then EmptyString :: split_slash s'
      else match split_slash s' with
           | [] => [String c EmptyString]
           | seg :: rest => String c seg :: rest
           end
  end.

Definition nonempty (s : string) : bool :=
  match s with EmptyString => false | String _ _ => true end.

Definition LF : string := String (ascii_of_nat 10) EmptyString.

End JsString.

(** ** node:path on a POSIX host *)

Module Path.
Import JsString.

(** The segment walk of [normalizeString]: empty and ["."] segments are
    dropped, [".."] removes the last kept segment, and above the top it
    is kept only when [allowAboveRoot]. [acc] is the kept segments, last
    one first. *)
Fixpoint normalize_segments (allowAboveRoot : bool) (acc segs : list string)
  : list string :=
  match segs with
  | [] => rev acc
  | seg :: segs' =>
      if String.eqb seg "" || String.eqb seg "." then
        normalize_segments allowAboveRoot acc segs'
      else if String.eqb seg ".." then
        match acc with
        | top :: acc' =>
            if String.eqb top ".." then
              if allowAboveRoot then
                normalize_segments allowAboveRoot (seg :: acc) segs'
              else normalize_segments allowAboveRoot acc segs'
            else normalize_segments allowAboveRoot acc' segs'
        | [] =>
            if allowAboveRoot then
              normalize_segments allowAboveRoot [seg] segs'
            else normalize_segments allowAboveRoot [] segs'
        end
      else normalize_segments allowAboveRoot (seg :: acc) segs'
  end.

Definition normalizeString (p : string) (allowAboveRoot : bool) : string :=
  JsString.join "/" (normalize_segments allowAboveRoot [] (split_slash p)).

Definition isAbsolute (p : string) : bool := startsWith p "/".

Definition normalize (p : string) : string :=
  if nonempty p then
    let isAbs := isAbsolute p in
    let trailing := endsWith p "/" in
    let q := normalizeString p (negb isAbs) in
    if nonempty q then
      (if isAbs then "/" else "") ++ q ++ (if trailing then "/" else "")
    else if isAbs then "/"
    else if trailing then "./" else "."
  else ".".

(** [path.join(...parts)] *)
Definition join (parts : list string) : string :=
  let joined := JsString.join "/" (filter (fun p => nonempty p = true) parts) in
  if nonempty joined then normalize joined else ".".

(** The right-to-left walk of [path.resolve]: arguments are prepended
    until an absolute one is met. *)
Fixpoint resolve_walk (rparts : list string) (resolved : string)
  : string * bool :=
  match rparts with
  | [] => (resolved, false)
  | p :: rparts' =>
      if nonempty p then
        let resolved' := p ++ "/" ++ resolved in
        if isAbsolute p then (resolved', true)
        else resolve_walk rparts' resolved'
      else resolve_walk rparts' resolved
  end.

(** [path.resolve(...parts)] with [process.cwd() = cwd]. *)
Definition resolve (cwd : string) (parts : list string) : string :=
  let '(resolved, isAbs) := resolve_walk (rev parts ++ [cwd]) "" in
  let q := normalizeString resolved (negb isAbs) in
  if isAbs then "/" ++ q
  else if nonempty q then q else ".".

Fixpoint strip_common (a b : list string) : list string * list string :=
  match a, b with
  | x :: a', y :: b' =>
      if String.eqb x y then strip_common a' b' else (a, b)
  | _, _ => (a, b)
  end.

Definition segments_of (p : string) : list string :=
  filter (fun seg => nonempty seg = true) (split_slash p).

(** [path.relative(from, to)]: both are resolved, the common leading
    segments are dropped, every remaining segment of [from] becomes
    [".."]. *)
Definition relative (cwd from to : string) : string :=
  let from' := resolve cwd [from] in
  let to' := resolve cwd [to] in
  let '(fr, tr) := strip_common (segments_of from') (segments_of to') in
  JsString.join "/" (repeat ".." (List.length fr) ++ tr).

(** The backwards scan of [path.dirname]: [rs] is the path without its
    first character, reversed; [i] is the index of the head of [rs]. *)
Fixpoint dirname_scan (rs : list ascii) (i : nat) (matchedSlash : bool)
  : option nat :=
  match rs with
  | [] => None
  | c :: rs' =>
      if Ascii.eqb c "/"%char then
        if matchedSlash then dirname_scan rs' (i - 1) true else Some i
      else dirname_scan rs' (i - 1) false
  end.

Definition dirname (p : string) : string :=
  if nonempty p then
    let hasRoot := isAbsolute p in
    match dirname_scan (rev (list_ascii_of_string (drop 1 p)))
                       (String.length p - 1) true with
    | None => if hasRoot then "/" else "."
    | Some e => if hasRoot && (e =? 1)%nat then "//" else take e p
    end
  else ".".

End Path.

(** ** Exceptions *)

Record JsError := { err_name : string; err_message : string }.

Inductive Result (A : Type) : Type :=
| Ok (a : A)
| Throw (err : JsError).
Arguments Ok {A} a.
Arguments Throw {A} err.

Definition result_bind {A B : Type} (r : Result A) (k : A → Result B)
  : Result B :=
  match r with
  | Ok a => k a
  | Throw err => Throw err
  end.

(** ** es-module-lexer *)

Module Lexer.
(** One entry of the first array [parse] returns. [s] and [e] delimit the
    specifier, [d] is -1 for a static import, -2 for [import.meta] and
    the offset of the import expression for a dynamic import, [n] is the
    specifier as a name, [None] for [undefined]. *)
Record ImportSpecifier := {
  s : nat;
  e : nat;
  d : Z;
  n : option string
}.
End Lexer.

(** ** magic-string: [new MagicString], [overwrite], [toString]

    What matters of a refused edit is that it throws; the message of a
    refused split leaves out the offsets and the content magic-string
    appends to it. *)

Module MagicString.
Import JsString.

Record Chunk := {
  c_start : nat;
  c_end : nat;
  c_original : string;
  c_content : string;
  c_edited : bool
}.

Record t := {
  original : string;
  chunks : list Chunk
}.

Definition new (code : string) : t :=
  {| original := code;
     chunks := [ {| c_start := 0; c_end := String.length code;
                    c_original := code; c_content := code;
                    c_edited := false |} ] |}.

Definition error (msg : string) : JsError :=
  {| err_name := "Error"; err_message := msg |}.

(** [Chunk.split]: the chunk is cut at [index]; an edited chunk can only
    be split while its content is empty. *)
Definition split_chunk (c : Chunk) (index : nat) : Result (Chunk * Chunk) :=
  if c_edited c && nonempty (c_content c) then
    Throw (error "Cannot split a chunk that has already been edited")
  else
    let k := index - c_start c in
    let before := slice (c_original c) 0 k in
    let after := slice_from (c_original c) k in
    Ok ({| c_start := c_start c; c_end := index;
           c_original := before;
           c_content := if c_edited c then "" else before;
           c_edited := c_edited c |},
        {| c_start := index; c_end := c_end c;
           c_original := after;
           c_content := if c_edited c then "" else after;
           c_edited := c_edited c |}).

(** [_split(index)]: nothing happens when [index] is already a chunk
    boundary; otherwise the chunk that contains it is split. *)
Fixpoint split (cs : list Chunk) (index : nat) : Result (list Chunk) :=
  match cs with
  | [] => Ok []
  | c :: cs' =>
      if (c_start c <? index)%nat && (index <? c_end c)%nat then
        result_bind (split_chunk c index)
          (fun '(c1, c2) => Ok (c1 :: c2 :: cs'))
      else
        result_bind (split cs' index) (fun cs'' => Ok (c :: cs''))
  end.

Definition edit (content : string) (c : Chunk) : Chunk :=
  {| c_start := c_start c; c_end := c_end c;
     c_original := c_original c;
     c_content := content; c_edited := true |}.

(** The chunks from [start] to [end]: the first receives the new
    content, the following ones are emptied. *)
Definition overwrite_chunk (start end_ : nat) (content : string) (c : Chunk)
  : Chunk :=
  if (c_start c =? start)%nat then edit content c
  else if (start <? c_start c)%nat && (c_end c <=? end_)%nat then edit "" c
  else c.

Definition overwrite (m : t) (start end_ : nat) (content : string)
  : Result t :=
  if (String.length (original m) <? end_)%nat then
    Throw (error "end is out of bounds")
  else if (start =? end_)%nat then
    Throw (error "Cannot overwrite a zero-length range – use appendLeft or prependRight instead")
  else if (end_ <? start)%nat then
    Throw (error "Cannot overwrite across a split point")
  else
    result_bind (split (chunks m) start) (fun cs1 =>
    result_bind (split cs1 end_) (fun cs2 =>
    Ok {| original := original m;
          chunks := map (overwrite_chunk start end_ content) cs2 |})).

Definition toString (m : t) : string :=
  fold_right (fun c acc => c_content c ++ acc) "" (chunks m).

End MagicString.

(** ** JSON values and the reads the resolver makes on them *)

(** Numbers are kept as integers: the resolver only tests whether a
    value is truthy. *)
Inductive Json :=
| JNull
| JBool (b : bool)
| JNum (z : Z)
| JStr (str : string)
| JArr (items : list Json)
| JObj (fields : list (string * Json)).

(** A JavaScript value as far as [pkg.module || pkg.main || "index.js"]
    can produce one. *)
Inductive JsValue :=
| JsUndefined
| JsJson (j : Json).

Definition truthy (v : JsValue) : bool :=
  match v with
  | JsUndefined => false
  | JsJson JNull => false
  | JsJson (JBool b) => b
  | JsJson (JNum z) => negb (z =? 0)%Z
  | JsJson (JStr str) => JsString.nonempty str
  | JsJson (JArr _) => true
  | JsJson (JObj _) => true
  end.

Fixpoint assoc (key : string) (fields : list (string * Json)) : option Json :=
  match fields with
  | [] => None
  | (k, v) :: fields' => if String.eqb k key then Some v else assoc key fields'
  end.

Definition type_error (msg : string) : JsError :=
  {| err_name := "TypeError"; err_message := msg |}.

(** [pkg.key]: reading a property of [null] throws, a value that has no
    such property gives [undefined]. *)
Definition get_property (pkg : Json) (key : string) : Result JsValue :=
  match pkg with
  | JNull => Throw (type_error "Cannot read properties of null")
  | JObj fields =>
      Ok (match assoc key fields with
          | Some j => JsJson j
          | None => JsUndefined
          end)
  | _ => Ok JsUndefined
  end.

(** ** @vue/compiler-sfc descriptors *)

Module Vue.
Record SFCBlock := { content : string }.
Record SFCDescriptor := {
  script : option SFCBlock;
  scriptSetup : option SFCBlock;
  template : option SFCBlock
}.
End Vue.

(** ** Collaborators *)

(** The libraries whose results the program only passes along. *)
Record Collaborators := {
  (** [parse] of es-module-lexer: the import entries of a module text *)
  parse : string → Result (list Lexer.ImportSpecifier);
  JSON_parse : string → Result Json;
  (** [vueParse(content).descriptor] *)
  vueParse : string → Vue.SFCDescriptor;
  (** [compileTemplate({ source, id }).code] *)
  compileTemplate : string → string → Result string;
  (** [path.extname] *)
  extname : string → string
}.

(** What the outside world answers during one request. *)
Record World := {
  (** [fs.readFile(path, "utf-8")] *)
  fs_readFile : string → Result string;
  (** [(await fs.stat(path)).isFile()] *)
  fs_stat_isFile : string → Result bool;
  (** [(await build({ entryPoints: [filepath], ... })).outputFiles[0].text] *)
  esbuild_build : string → Result string
}.

(** ** Server state and the effects of a request *)

(** [CacheHas id] is the test [depCache.has(id)]; [Build id filepath] is
    the call of the bundler that [optimizeDep(id, filepath)] makes;
    [AssignType ctype] is an assignment to [context.type] by a request that
    rejects afterwards, whose context is therefore not returned. *)
Inductive Event :=
| ConsoleLog (msg : string)
| ConsoleError (msg : string)
| ReadFile (path : string)
| Stat (path : string)
| CacheHas (id : string)
| Build (id filepath : string)
| AssignType (ctype : string).

Record Server := {
  depCache : gmap string string;
  trace : list Event
}.

Definition M (A : Type) : Type := Server → Server * Result A.

Definition ret {A : Type} (a : A) : M A := fun st => (st, Ok a).

Definition throw {A : Type} (err : JsError) : M A := fun st => (st, Throw err).

Definition lift {A : Type} (r : Result A) : M A := fun st => (st, r).

Definition bind {A B : Type} (m : M A) (k : A → M B) : M B :=
  fun st =>
    match m st with
    | (st', Ok a) => k a st'
    | (st', Throw err) => (st', Throw err)
    end.

Definition try_catch {A : Type} (m : M A) (handler : JsError → M A) : M A :=
  fun st =>
    match m st with
    | (st', Ok a) => (st', Ok a)
    | (st', Throw err) => handler err st'
    end.

Definition emit (ev : Event) : M unit :=
  fun st => ({| depCache := depCache st; trace := trace st ++ [ev] |}, Ok tt).

Notation "'let*' x ':=' m 'in' k" := (bind m (fun x => k))
  (at level 10, x pattern, m at level 100, k at level 200).
Notation "m ';;' k" := (bind m (fun _ => k))
  (at level 100, k at level 200, right associativity).

Definition readFile (w : World) (path : string) : M string :=
  emit (ReadFile path);; lift (fs_readFile w path).

Definition stat_isFile (w : World) (path : string) : M bool :=
  emit (Stat path);; lift (fs_stat_isFile w path).

(** ** The Koa context *)

(** A body is a text: the one place that would assign a stream calls
    [fs.createReadStream], which [node:fs/promises] does not have. *)
Inductive Body :=
| BodyText (text : string).

Record Context := {
  ctx_status : option nat;
  ctx_type : option string;
  ctx_body : option Body
}.

(** ** The import rewriters *)

Section Rewriters.
Import JsString.
Variable lib : Collaborators.
(** [process.cwd()] *)
Variable cwd : string.

(** One round of the loop of [resolveImports]. *)
Definition resolve_step (code currentDir : string)
    (acc : Result MagicString.t) (imp : Lexer.ImportSpecifier)
  : Result MagicString.t :=
  result_bind acc (fun magicString =>
    if (Lexer.d imp >? -1)%Z then Ok magicString
    else
      let importPath := substring code (Lexer.s imp) (Lexer.e imp) in
      if startsWith importPath "/" then Ok magicString
      else
        let resolvedPath := Path.resolve cwd [currentDir; importPath] in
        let normalizedPath :=
          "/" ++ backslashes_to_slashes (Path.relative cwd cwd resolvedPath) in
        MagicString.overwrite magicString (Lexer.s imp) (Lexer.e imp)
          normalizedPath).

Definition resolveImports (code currentDir : string) : Result string :=
  result_bind (parse lib code) (fun imports =>
    match imports with
    | [] => Ok code
    | _ =>
        result_bind
          (fold_left (resolve_step code currentDir) imports
             (Ok (MagicString.new code)))
          (fun magicString => Ok (MagicString.toString magicString))
    end).

(** The test [name && !name.startsWith("/") && !name.startsWith(".")]
    on a name that is not [undefined]. *)
Definition is_bare (name : string) : bool :=
  nonempty name && negb (startsWith name "/") && negb (startsWith name ".").

(** One round of the loop of [rewriteImports]. *)
Definition rewrite_step (imp : Lexer.ImportSpecifier) (rewrittenCode : string)
  : string :=
  match Lexer.n imp with
  | Some name =>
      if is_bare name then
        let rewritten := "/@modules/" ++ name in
        slice rewrittenCode 0 (Lexer.s imp) ++ rewritten
          ++ slice_from rewrittenCode (Lexer.e imp)
      else rewrittenCode
  | None => rewrittenCode
  end.

(** The loop runs from the last entry to the first. *)
Definition rewriteImports (code : string) : Result string :=
  result_bind (parse lib code) (fun imports =>
    Ok (fold_right rewrite_step code imports)).

End Rewriters.

(** ** The server of [createDevServer] *)

Section DevServer.
Import JsString.
Variable lib : Collaborators.
(** [params.rootDir] *)
Variable rootDir : string.

Definition nodeModulesDir : string := Path.join [rootDir; "node_modules"].

Definition js_or (a : JsValue) (b : JsValue) : JsValue :=
  if truthy a then a else b.

(** [pkg.module || pkg.main || "index.js"]; [pkg.main] is read only when
    [pkg.module] is falsy. *)
Definition entry_point (pkg : Json) : Result JsValue :=
  result_bind (get_property pkg "module") (fun m =>
    if truthy m then Ok m
    else
      result_bind (get_property pkg "main") (fun mn =>
        Ok (js_or mn (JsJson (JStr "index.js"))))).

(** [path.join(nodeModulesDir, id, entryPoint)]: every argument must be
    a string. *)
Definition join_entry (id : string) (entryPoint : JsValue) : Result string :=
  match entryPoint with
  | JsJson (JStr file) => Ok (Path.join [nodeModulesDir; id; file])
  | _ => Throw (type_error "The path argument must be of type string")
  end.

Definition resolveBareModule (w : World) (id : string) : M string :=
  try_catch
    (let pkgPath := Path.join [nodeModulesDir; id; "package.json"] in
     let* text := readFile w pkgPath in
     let* pkg := lift (JSON_parse lib text) in
     let* entryPoint := lift (entry_point pkg) in
     lift (join_entry id entryPoint))
    (fun err =>
       emit (ConsoleError ("Cannot resolve bare module: " ++ id));;
       throw err).

(** An activation of [optimizeDep] suspended at [await build(...)]. *)
Record Pending := { p_id : string; p_filepath : string }.

Inductive Entered :=
| Hit (text : string)
| Awaiting (p : Pending).

(** [optimizeDep] up to its [await]: the cache test, and on a miss the
    call of the bundler. *)
Definition optimizeDep_enter (id filepath : string) : M Entered :=
  emit (CacheHas id);;
  fun st =>
    match depCache st !! id with
    | Some text => ret (Hit text) st
    | None =>
        (emit (ConsoleLog ("Optimizing dependency: " ++ id));;
         emit (Build id filepath);;
         ret (Awaiting {| p_id := id; p_filepath := filepath |})) st
    end.

(** [optimizeDep] from the moment the bundler settles with [r]. *)
Definition optimizeDep_settle (p : Pending) (r : Result string) : M string :=
  match r with
  | Ok optimized =>
      fun st =>
        ({| depCache := <[p_id p := optimized]> (depCache st);
            trace := trace st |}, Ok optimized)
  | Throw err =>
      emit (ConsoleError ("Failed to optimize: " ++ p_id p));;
      throw err
  end.

(** One activation of [optimizeDep] that nothing interleaves with. *)
Definition optimizeDep (w : World) (id filepath : string) : M string :=
  let* entered := optimizeDep_enter id filepath in
  match entered with
  | Hit text => ret text
  | Awaiting p => optimizeDep_settle p (esbuild_build w filepath)
  end.

Definition handle_modules (w : World) (url : string) : M Context :=
  let id := slice_from url 10 in
  try_catch
    (let* modulePath := resolveBareModule w id in
     let* content := optimizeDep w id modulePath in
     ret {| ctx_status := None;
            ctx_type := Some "application/javascript";
            ctx_body := Some (BodyText content) |})
    (fun _ =>
       ret {| ctx_status := Some 404;
              ctx_type := None;
              ctx_body := Some (BodyText ("Module not found: " ++ id)) |}).

Definition handle_html (w : World) (url : string) : M Context :=
  let filePath := Path.join [rootDir; url] in
  let* content := readFile w filePath in
  ret {| ctx_status := None; ctx_type := Some "text/html";
         ctx_body := Some (BodyText content) |}.

Definition handle_js (w : World) (url : string) : M Context :=
  try_catch
    (let filepath := Path.join [rootDir; url] in
     let* code := readFile w filepath in
     let* code' := lift (rewriteImports lib code) in
     ret {| ctx_status := None;
            ctx_type := Some "application/javascript";
            ctx_body := Some (BodyText code') |})
    (fun _ =>
       ret {| ctx_status := Some 404; ctx_type := None; ctx_body := None |}).

Definition handle_css (w : World) (url : string) : M Context :=
  let filePath := Path.join [rootDir; url] in
  let* content := readFile w filePath in
  ret {| ctx_status := None; ctx_type := Some "text/css";
         ctx_body := Some (BodyText content) |}.

(** The script text the [.vue] branch keeps. *)
Definition script_content (descriptor : Vue.SFCDescriptor) : string :=
  match Vue.script descriptor with
  | Some block => Vue.content block
  | None =>
      match Vue.scriptSetup descriptor with
      | Some block => Vue.content block
      | None => ""
      end
  end.

Definition template_content (descriptor : Vue.SFCDescriptor) (filePath : string)
  : Result string :=
  match Vue.template descriptor with
  | Some block =>
      result_bind (compileTemplate lib (Vue.content block) filePath)
        (fun code =>
           Ok ("export function render(_ctx, _cache, $props, $setup, $data, $options) { "
                 ++ code ++ " }"))
  | None => Ok ""
  end.

Definition combinedCode (scriptContent templateContent : string) : string :=
  LF ++ "      " ++ scriptContent
     ++ LF ++ "      " ++ templateContent
     ++ LF ++ "                        ".

Definition handle_vue (w : World) (url : string) : M Context :=
  let filePath := Path.join [rootDir; url] in
  let* content := readFile w filePath in
  let descriptor := vueParse lib content in
  let scriptContent := script_content descriptor in
  let* templateContent := lift (template_content descriptor filePath) in
  ret {| ctx_status := None;
         ctx_type := Some "application/javascript";
         ctx_body := Some (BodyText (combinedCode scriptContent templateContent)) |}.

(** [fs] is [node:fs/promises]: for a regular file the content type is
    assigned, and then the call of [fs.createReadStream], which is
    [undefined], throws. *)
Definition handle_other (w : World) (url : string) : M Context :=
  let filePath := Path.join [rootDir; "/src/assets/"; url] in
  let* isFile := stat_isFile w filePath in
  if isFile : bool then
    emit (AssignType (slice_from (extname lib url) 1));;
    throw (type_error "fs.createReadStream is not a function")
  else
    ret {| ctx_status := Some 404; ctx_type := None;
           ctx_body := Some (BodyText "Not Found") |}.

(** The function passed to [app.use]. A [Throw] is a rejection that
    leaves the middleware. *)
Definition middleware (w : World) (request_url : string) : M Context :=
  let url := if String.eqb request_url "/" then "/index.html" else request_url in
  if (indexOf url "@modules" >? -1)%Z then handle_modules w url
  else if endsWith url ".html" then handle_html w url
  else if endsWith url ".js" then handle_js w url
  else if endsWith url ".css" then handle_css w url
  else if endsWith url ".vue" then handle_vue w url
  else handle_other w url.

(** *** Interleaved activations of [optimizeDep]

    The server is single-threaded: an activation runs until its
    [await], other requests may run before the bundler settles. *)

Inductive Action :=
| Call (id filepath : string)
| Settle (k : nat) (r : Result string).

Record Sys := {
  server : Server;
  inflight : list Pending
}.

(** What an activation that finished gave to its caller. *)
Record Finished := { f_id : string; f_result : Result string }.

Definition step (a : Action) (sys : Sys) : Sys * option Finished :=
  match a with
  | Call id filepath =>
      match optimizeDep_enter id filepath (server sys) with
      | (st, Ok (Hit text)) =>
          ({| server := st; inflight := inflight sys |},
           Some {| f_id := id; f_result := Ok text |})
      | (st, Ok (Awaiting p)) =>
          ({| server := st; inflight := inflight sys ++ [p] |}, None)
      | (st, Throw err) =>
          ({| server := st; inflight := inflight sys |},
           Some {| f_id := id; f_result := Throw err |})
      end
  | Settle k r =>
      match inflight sys !! k with
      | Some p =>
          let '(st, res) := optimizeDep_settle p r (server sys) in
          ({| server := st; inflight := delete k (inflight sys) |},
           Some {| f_id := p_id p; f_result := res |})
      | None => (sys, None)
      end
  end.

Fixpoint run (acts : list Action) (sys : Sys) : Sys * list Finished :=
  match acts with
  | [] => (sys, [])
  | a :: acts' =>
      let '(sys1, o) := step a sys in
      let '(sys2, os) := run acts' sys1 in
      (sys2, match o with Some f => f :: os | None => os end)
  end.

(** The bundler calls made for package [id]. *)
Definition builds_of (id : string) (tr : list Event) : list string :=
  omap (fun ev =>
          match ev with
          | Build id' filepath =>
              if String.eqb id' id then Some filepath else None
          | _ => None
          end) tr.

End DevServer.

(** The server after it has recorded [evs]. *)
Definition with_events (st : Server) (evs : list Event) : Server :=
  {| depCache := depCache st; trace := trace st ++ evs |}.

Fixpoint last_char (s : string) : option ascii :=
  match s with
  | EmptyString => None
  | String c EmptyString => Some c
  | String _ s' => last_char s'
  end.

(** ** What a [/@modules/] request meets on disk *)

Definition manifest_path (rootDir id : string) : string :=
  Path.join [nodeModulesDir rootDir; id; "package.json"].

(** The manifest of package [id] as the resolver gets it: the read or
    [JSON.parse] may throw. *)
Definition read_manifest (lib : Collaborators) (rootDir : string) (w : World)
    (id : string) : Result Json :=
  result_bind (fs_readFile w (manifest_path rootDir id)) (JSON_parse lib).

(** The entry file the resolver computes from the manifest. *)
Definition resolved_entry (lib : Collaborators) (rootDir : string) (w : World)
    (id : string) : Result string :=
  result_bind (read_manifest lib rootDir w id) (fun pkg =>
    result_bind (entry_point pkg) (join_entry rootDir id)).

(** What the resolver records when it fails. *)
Definition resolve_failure_events (rootDir id : string) : list Event :=
  [ReadFile (manifest_path rootDir id);
   ConsoleError ("Cannot resolve bare module: " ++ id)].

(** What [optimizeDep] records on a cache miss, up to the bundler call. *)
Definition miss_events (id filepath : string) : list Event :=
  [CacheHas id; ConsoleLog ("Optimizing dependency: " ++ id);
   Build id filepath].

Definition not_found (id : string) : Context :=
  {| ctx_status := Some 404;
     ctx_type := None;
     ctx_body := Some (BodyText ("Module not found: " ++ id)) |}.

(** ** Edit lists against the original text *)

Section EditLists.
Import JsString.

(** The import entries are in text order, do not overlap and lie inside
    a text of length [len]; [lo] is where the previous entry ended. *)
Fixpoint spans_ok (lo len : nat) (imports : list Lexer.ImportSpecifier) : bool :=
  match imports with
  | [] => true
  | imp :: rest =>
      (lo <=? Lexer.s imp)%nat && (Lexer.s imp <=? Lexer.e imp)%nat
      && (Lexer.e imp <=? len)%nat && spans_ok (Lexer.e imp) len rest
  end.

(** The text from [pos] on, where the span of every entry for which
    [replacement] gives a text is replaced by that text and everything
    else is copied from [code]. *)
Fixpoint copy_and_substitute (code : string) (pos : nat)
    (replacement : Lexer.ImportSpecifier → option string)
    (imports : list Lexer.ImportSpecifier) : string :=
  match imports with
  | [] => slice_from code pos
  | imp :: rest =>
      slice code pos (Lexer.s imp)
      ++ match replacement imp with
         | Some text => text
         | None => slice code (Lexer.s imp) (Lexer.e imp)
         end
      ++ copy_and_substitute code (Lexer.e imp) replacement rest
  end.

(** The entries [rewriteImports] replaces, and by what. *)
Definition bare_replacement (imp : Lexer.ImportSpecifier) : option string :=
  match Lexer.n imp with
  | Some name => if is_bare name then Some ("/@modules/" ++ name) else None
  | None => None
  end.

End EditLists.

(** As [spans_ok], and no span is empty. *)
Fixpoint spans_strict (lo len : nat) (imports : list Lexer.ImportSpecifier)
  : bool :=
  match imports with
  | [] => true
  | imp :: rest =>
      (lo <=? Lexer.s imp)%nat && (Lexer.s imp <? Lexer.e imp)%nat
      && (Lexer.e imp <=? len)%nat && spans_strict (Lexer.e imp) len rest
  end.

(** The entries [resolveImports] replaces, and by what: every entry that
    is not dynamic and whose text does not begin with a slash. *)
Definition resolved_replacement (cwd code currentDir : string)
    (imp : Lexer.ImportSpecifier) : option string :=
  if (Lexer.d imp >? -1)%Z then None
  else
    let importPath := JsString.substring code (Lexer.s imp) (Lexer.e imp) in
    if JsString.startsWith importPath "/" then None
    else
      Some ("/" ++ JsString.backslashes_to_slashes
                     (Path.relative cwd cwd
                        (Path.resolve cwd [currentDir; importPath]))).

(** The untouched chunk that holds the text of [code] from [q] on. *)
Definition tail_chunk (code : string) (q : nat) : MagicString.Chunk :=
  {| MagicString.c_start := q;
     MagicString.c_end := String.length code;
     MagicString.c_original := JsString.drop q code;
     MagicString.c_content := JsString.drop q code;
     MagicString.c_edited := false |}.

(** A chunk that lies before offset [q]. *)
Definition chunk_before (q : nat) (c : MagicString.Chunk) : Prop :=
  MagicString.c_start c < q ∧ MagicString.c_end c <= q.

Definition chunks_text (cs : list MagicString.Chunk) : string :=
  fold_right (fun c acc => MagicString.c_content c ++ acc) "" cs.

(** ** Sample collaborators *)

Definition enoent : JsError :=
  {| err_name := "Error"; err_message := "ENOENT: no such file or directory" |}.

Definition syntax_error : JsError :=
  {| err_name := "SyntaxError"; err_message := "Unexpected token" |}.

Definition build_failed : JsError :=
  {| err_name := "Error"; err_message := "Build failed with 1 error" |}.

(** A lexer that answers [imports] for the text [code]. *)
Definition sample_lib (code : string) (imports : list Lexer.ImportSpecifier)
  : Collaborators :=
  {| parse := fun text =>
       if String.eqb text code then Ok imports else Ok [];
     JSON_parse := fun _ => Throw syntax_error;
     vueParse := fun _ =>
       {| Vue.script := None; Vue.scriptSetup := None; Vue.template := None |};
     compileTemplate := fun source _ => Ok source;
     extname := fun _ => "" |}.

(** A file system that holds one file, and a bundler that fails. *)
Definition one_file_world (path text : string) : World :=
  {| fs_readFile := fun p => if String.eqb p path then Ok text else Throw enoent;
     fs_stat_isFile := fun p => Ok (String.eqb p path);
     esbuild_build := fun _ => Throw build_failed |}.

Definition fresh_server : Server := {| depCache := ∅; trace := [] |}.

Definition static_import (s e : nat) (name : string) : Lexer.ImportSpecifier :=
  {| Lexer.s := s; Lexer.e := e; Lexer.d := -1; Lexer.n := Some name |}.

Definition dynamic_import (s e : nat) (d : Z) (name : string)
  : Lexer.ImportSpecifier :=
  {| Lexer.s := s; Lexer.e := e; Lexer.d := d; Lexer.n := Some name |}.

(** A component parser that answers [descriptor], and a template
    compiler that returns the template. *)
Definition vue_lib (descriptor : Vue.SFCDescriptor) : Collaborators :=
  {| parse := fun _ => Ok [];
     JSON_parse := fun _ => Throw syntax_error;
     vueParse := fun _ => descriptor;
     compileTemplate := fun source _ => Ok ("return " ++ source);
     extname := fun _ => "" |}.

(** A component with a [<script>] block and a [<script setup>] block. *)
Definition both_blocks : Vue.SFCDescriptor :=
  {| Vue.script := Some {| Vue.content := "export default { name: 'App' }" |};
     Vue.scriptSetup := Some {| Vue.content := "const msg = 'hi'" |};
     Vue.template := None |}.

(** The entry list has no static import. *)
Definition no_static_import (imports : list Lexer.ImportSpecifier) : bool :=
  forallb (fun imp => negb (Lexer.d imp =? -1)%Z) imports.

(** No entry of the list has a bare name. *)
Definition no_bare_name (imports : list Lexer.ImportSpecifier) : bool :=
  forallb (fun imp => match bare_replacement imp with
                      | Some _ => false
                      | None => true
                      end) imports.

(** A project whose [node_modules] holds the package [react]: its
    manifest names an ESM entry, and the bundler settles with [built]. *)
Definition react_lib : Collaborators :=
  {| parse := fun _ => Ok [];
     JSON_parse := fun text =>
       if String.eqb text "manifest of react"
       then Ok (JObj [("main", JStr "index.js"); ("module", JStr "index.esm.js")])
       else Throw syntax_error;
     vueParse := fun _ =>
       {| Vue.script := None; Vue.scriptSetup := None; Vue.template := None |};
     compileTemplate := fun source _ => Ok source;
     extname := fun _ => "" |}.

Definition react_world (built : Result string) : World :=
  {| fs_readFile := fun p =>
       if String.eqb p "/proj/node_modules/react/package.json"
       then Ok "manifest of react" else Throw enoent;
     fs_stat_isFile := fun _ => Throw enoent;
     esbuild_build := fun _ => built |}.

(** A server that has already bundled [react]. *)
Definition react_cached : Server :=
  {| depCache := {[ "react" := "export default React" ]}; trace := [] |}.

(** A server that has served nothing yet. *)
Definition idle : Sys := {| server := fresh_server; inflight := [] |}.

Definition react_entry_file : string := "/proj/node_modules/react/index.esm.js".

(** The activation finished for package [id] with [text]. *)
Definition returned (id text : string) : Finished :=
  {| f_id := id; f_result := Ok text |}.

(** Every activation for package [id] that finished returned [text]. *)
Definition all_returned (id text : string) (done : list Finished) : Prop :=
  Forall (fun f => f_id f = id → f_result f = Ok text) done.

(** No activation in flight is for package [id]. *)
Definition none_inflight (id : string) (pending : list Pending) : Prop :=
  Forall (fun q => p_id q ≠ id) pending.

(** [react] has been requested once and its build has not settled. *)
Definition one_build_inflight : Sys :=
  (step (Call "react" react_entry_file) idle).1.

(** ** The earlier revision of the middleware

    The revision kept beside [index.js] reads the requested file before it
    looks at the URL, dispatches only when the URL begins with [./] or
    [../], and passes [.js] files through [resolveImports]. *)

Module Earlier.
Section Middleware.
Import JsString.
Variable lib : Collaborators.
Variable rootDir : string.
(** [process.cwd()] *)
Variable cwd : string.

Definition dispatch (w : World) (url filePath content : string) : M Context :=
  if endsWith url ".html" then
    ret {| ctx_status := None; ctx_type := Some "text/html";
           ctx_body := Some (BodyText content) |}
  else if endsWith url ".js" then
    let* code := lift (resolveImports lib cwd content (Path.dirname filePath)) in
    ret {| ctx_status := None;
           ctx_type := Some "application/javascript";
           ctx_body := Some (BodyText code) |}
  else if endsWith url ".css" then
    ret {| ctx_status := None; ctx_type := Some "text/css";
           ctx_body := Some (BodyText content) |}
  else if endsWith url ".vue" then
    let descriptor := vueParse lib content in
    let scriptContent := script_content descriptor in
    let* templateContent := lift (template_content lib descriptor filePath) in
    ret {| ctx_status := None;
           ctx_type := Some "application/javascript";
           ctx_body := Some (BodyText (combinedCode scriptContent templateContent)) |}
  else
    let* isFile := stat_isFile w filePath in
    if isFile : bool then
      emit (AssignType (slice_from (extname lib url) 1));;
      throw (type_error "fs.createReadStream is not a function")
    else
      ret {| ctx_status := Some 404; ctx_type := None;
             ctx_body := Some (BodyText "Not Found") |}.

Definition middleware (w : World) (request_url : string) : M Context :=
  let url := if String.eqb request_url "/" then "/index.html" else request_url in
  let filePath := Path.join [rootDir; url] in
  let* content := readFile w filePath in
  if startsWith url "./" || startsWith url "../" then
    dispatch w url filePath content
  else
    ret {| ctx_status := None; ctx_type := None; ctx_body := None |}.

End Middleware.
End Earlier.

(** ** Contexts and values the statements below name *)

(** The URL the middleware works on. *)
Definition effective_url (request_url : string) : string :=
  if String.eqb request_url "/" then "/index.html" else request_url.

(** A context in which nothing was assigned. *)
Definition untouched : Context :=
  {| ctx_status := None; ctx_type := None; ctx_body := None |}.

(** A context with a content type and a text body. *)
Definition text_response (ctype text : string) : Context :=
  {| ctx_status := None; ctx_type := Some ctype;
     ctx_body := Some (BodyText text) |}.

(** The context the [.js] branch leaves when it catches an exception. *)
Definition status_404_only : Context :=
  {| ctx_status := Some 404; ctx_type := None; ctx_body := None |}.

(** The value is not a string. *)
Definition not_a_string (v : JsValue) : bool :=
  match v with
  | JsJson (JStr _) => false
  | _ => true
  end.

(** A project whose [node_modules] holds a package [odd] whose manifest is
    the JSON text [null]. *)
Definition odd_lib : Collaborators :=
  {| parse := fun _ => Ok [];
     JSON_parse := fun text =>
       if String.eqb text "null" then Ok JNull else Throw syntax_error;
     vueParse := fun _ =>
       {| Vue.script := None; Vue.scriptSetup := None; Vue.template := None |};
     compileTemplate := fun source _ => Ok source;
     extname := fun _ => "" |}.

Definition odd_world : World :=
  {| fs_readFile := fun p =>
       if String.eqb p "/proj/node_modules/odd/package.json"
       then Ok "null" else Throw enoent;
     fs_stat_isFile := fun _ => Throw enoent;
     esbuild_build := fun _ => Throw build_failed |}.

(** A manifest with a [main] field only, and one with neither field. *)
Definition main_only_lib (fields : list (string * Json)) : Collaborators :=
  {| parse := fun _ => Ok [];
     JSON_parse := fun _ => Ok (JObj fields);
     vueParse := fun _ =>
       {| Vue.script := None; Vue.scriptSetup := None; Vue.template := None |};
     compileTemplate := fun source _ => Ok source;
     extname := fun _ => "" |}.

(** A component with a [<script setup>] block and a template. *)
Definition setup_component : Vue.SFCDescriptor :=
  {| Vue.script := None;
     Vue.scriptSetup := Some {| Vue.content := "const msg = 'hi'" |};
     Vue.template := Some {| Vue.content := "<div>{{msg}}</div>" |} |}.

Definition compile_error : JsError :=
  {| err_name := "SyntaxError"; err_message := "Element is missing end tag." |}.

(** As [vue_lib], with a template compiler that throws. *)
Definition broken_template_lib (descriptor : Vue.SFCDescriptor) : Collaborators :=
  {| parse := fun _ => Ok [];
     JSON_parse := fun _ => Throw syntax_error;
     vueParse := fun _ => descriptor;
     compileTemplate := fun _ _ => Throw compile_error;
     extname := fun _ => "" |}.

(** The tests by which the loop of [resolveImports] leaves an entry
    alone: it is dynamic, or its text begins with a slash. *)
Definition skipped_by_resolve (code : string) (imp : Lexer.ImportSpecifier)
  : bool :=
  (Lexer.d imp >? -1)%Z
  || JsString.startsWith
       (JsString.substring code (Lexer.s imp) (Lexer.e imp)) "/".

(** The entries of [resolveImports] that are static imports, and what it
    puts in their place. *)
Definition static_replacement (cwd code currentDir : string)
    (imp : Lexer.ImportSpecifier) : option string :=
  if (Lexer.d imp =? -1)%Z then
    let importPath := JsString.substring code (Lexer.s imp) (Lexer.e imp) in
    if JsString.startsWith importPath "/" then None
    else
      Some ("/" ++ JsString.backslashes_to_slashes
                     (Path.relative cwd cwd
                        (Path.resolve cwd [currentDir; importPath])))
  else None.

(** Every entry is a static import ([d = -1]) or a dynamic import
    ([d > -1]): there is no [import.meta] entry. *)
Definition no_import_meta (imports : list Lexer.ImportSpecifier) : bool :=
  forallb (fun imp => (-1 <=? Lexer.d imp)%Z) imports.

(** Two requests for package [id] have entered [optimizeDep], the first
    with entry file [filepath1], the second with [filepath2]; no build has
    settled since. *)
Definition two_misses (id filepath1 filepath2 : string) (sys : Sys) : Sys :=
  (run [Call id filepath1; Call id filepath2] sys).1.


(** * Properties *)

(** ** Worked values of the path model *)

Example path_join_ex :
  Path.join ["/proj"; "/src/app.js"] = "/proj/src/app.js".
Proof. reflexivity. Qed.

Example path_dirname_ex : Path.dirname "/proj/src/app.js" = "/proj/src".
Proof. reflexivity. Qed.

Example path_resolve_ex :
  Path.resolve "/proj" ["/proj/src"; "./foo.js"] = "/proj/src/foo.js".
Proof. reflexivity. Qed.

Example path_resolve_up_ex :
  Path.resolve "/proj" ["/proj/src/a"; "../b/c.js"] = "/proj/src/b/c.js".
Proof. reflexivity. Qed.

Example path_relative_ex :
  Path.relative "/proj" "/proj" "/proj/src/foo.js" = "src/foo.js".
Proof. reflexivity. Qed.

Example path_relative_up_ex :
  Path.relative "/proj/app" "/proj/app" "/proj/lib/x.js" = "../lib/x.js".
Proof. reflexivity. Qed.

(** ** Strings *)

Section StringFacts.
Import JsString.
Local Arguments String.append !s1 s2 : simpl nomatch.

Lemma length_append (a b : string) :
  String.length (a ++ b) = String.length a + String.length b.
Proof. induction a as [|c a IH]; simpl; [reflexivity | now rewrite IH]. Qed.

Lemma append_nil_r (a : string) : a ++ "" = a.
Proof. induction a as [|c a IH]; simpl; [reflexivity | now rewrite IH]. Qed.

Lemma append_assoc (a b c : string) : (a ++ b) ++ c = a ++ (b ++ c).
Proof. induction a as [|x a IH]; simpl; [reflexivity | now rewrite IH]. Qed.

Lemma take_drop (k : nat) (s : string) : take k s ++ drop k s = s.
Proof.
  revert s; induction k as [|k IH]; intros [|c s]; simpl; try reflexivity.
  now rewrite IH.
Qed.

Lemma take_length (k : nat) (s : string) :
  k <= String.length s → String.length (take k s) = k.
Proof.
  revert s; induction k as [|k IH]; intros [|c s]; simpl; intros H;
    try reflexivity; try lia.
  rewrite IH; [reflexivity | lia].
Qed.

Lemma take_app_le (k : nat) (a b : string) :
  k <= String.length a → take k (a ++ b) = take k a.
Proof.
  revert a; induction k as [|k IH]; intros a H; [reflexivity|].
  destruct a as [|c a]; simpl in *; [lia|].
  rewrite IH; [reflexivity | lia].
Qed.

Lemma drop_app_length (a b : string) : drop (String.length a) (a ++ b) = b.
Proof. induction a as [|c a IH]; simpl; [now destruct b | exact IH]. Qed.

Lemma take_app_length (a b : string) : take (String.length a) (a ++ b) = a.
Proof.
  induction a as [|c a IH]; simpl; [now destruct b | now rewrite IH].
Qed.

Lemma take_take (j k : nat) (s : string) :
  j <= k → take j (take k s) = take j s.
Proof.
  revert k s; induction j as [|j IH]; intros [|k] [|c s] H; simpl;
    try reflexivity; try lia.
  rewrite IH; [reflexivity | lia].
Qed.

Lemma drop_drop (j k : nat) (s : string) : drop j (drop k s) = drop (k + j) s.
Proof.
  revert s; induction k as [|k IH]; intros s; simpl; [reflexivity|].
  destruct s as [|c s]; simpl; [now destruct j | apply IH].
Qed.

Lemma drop_length (k : nat) (s : string) :
  String.length (drop k s) = String.length s - k.
Proof.
  revert s; induction k as [|k IH]; intros [|c s]; simpl;
    try reflexivity; try lia.
  apply IH.
Qed.

(** The text up to [a], then the text from [a] to [b], is the text up to
    [b]. *)
Lemma take_slice (s : string) (a b : nat) :
  a <= b → take a s ++ slice s a b = take b s.
Proof.
  unfold slice. revert s b; induction a as [|a IH]; intros s b H; simpl.
  - rewrite Nat.sub_0_r. now destruct s.
  - destruct b as [|b]; [lia|]. destruct s as [|c s]; simpl.
    + now destruct (b - a).
    + rewrite IH; [reflexivity | lia].
Qed.

Lemma slice_0 (s : string) (b : nat) : slice s 0 b = take b s.
Proof. unfold slice. rewrite Nat.sub_0_r. now destruct s. Qed.

End StringFacts.

(** ** [rewriteImports] *)

Section RewriteImports.
Import JsString.

Lemma rewrite_step_spec (imp : Lexer.ImportSpecifier) (text : string) :
  rewrite_step imp text =
  match bare_replacement imp with
  | Some r => take (Lexer.s imp) text ++ r ++ drop (Lexer.e imp) text
  | None => text
  end.
Proof.
  unfold rewrite_step, bare_replacement.
  destruct (Lexer.n imp) as [name|]; [|reflexivity].
  destruct (is_bare name); [|reflexivity].
  now rewrite slice_0.
Qed.

(** Going from the last entry to the first, the text before the entry
    being handled is still the original text. *)
Lemma rewrite_loop_from (code : string) (imports : list Lexer.ImportSpecifier) :
  ∀ lo, spans_ok lo (String.length code) imports = true →
    fold_right rewrite_step code imports =
    take lo code ++ copy_and_substitute code lo bare_replacement imports.
Proof.
  induction imports as [|imp rest IH]; intros lo Hok; simpl.
  - symmetry. apply take_drop.
  - simpl in Hok.
    apply andb_prop in Hok as [Hok Hrest].
    apply andb_prop in Hok as [Hok He].
    apply andb_prop in Hok as [Hlo Hse].
    apply Nat.leb_le in Hlo, Hse, He.
    rewrite (IH _ Hrest), rewrite_step_spec.
    rewrite <- append_assoc, take_slice by exact Hlo.
    destruct (bare_replacement imp) as [r|].
    + rewrite take_app_le by (rewrite take_length; lia).
      rewrite take_take by exact Hse.
      assert (Hd : ∀ x, drop (Lexer.e imp) (take (Lexer.e imp) code ++ x) = x).
      { intros x.
        rewrite <- (take_length (Lexer.e imp) code He) at 1.
        apply drop_app_length. }
      now rewrite Hd.
    + now rewrite <- append_assoc, take_slice by exact Hse.
Qed.

Lemma rewrite_loop (code : string) (imports : list Lexer.ImportSpecifier) :
  spans_ok 0 (String.length code) imports = true →
  fold_right rewrite_step code imports =
  copy_and_substitute code 0 bare_replacement imports.
Proof. intros Hok. now rewrite (rewrite_loop_from code imports 0 Hok). Qed.

(** A module with one import, whose name is bare: the specifier becomes
    [/@modules/<name>], the text before and after it stays. *)
Lemma rewriteImports_one_bare (lib : Collaborators)
    (before specifier after name : string) (d : Z) :
  parse lib (before ++ specifier ++ after)
  = Ok [ {| Lexer.s := String.length before;
            Lexer.e := String.length before + String.length specifier;
            Lexer.d := d; Lexer.n := Some name |} ] →
  is_bare name = true →
  rewriteImports lib (before ++ specifier ++ after)
  = Ok (before ++ "/@modules/" ++ name ++ after).
Proof.
  intros Hp Hb. unfold rewriteImports. rewrite Hp.
  cbn [result_bind fold_right]. rewrite rewrite_step_spec.
  unfold bare_replacement. cbn [Lexer.n Lexer.s Lexer.e]. rewrite Hb.
  rewrite take_app_length, <- drop_drop, drop_app_length, drop_app_length.
  reflexivity.
Qed.

End RewriteImports.

(** Three imports, two of them bare: the later spans are still found
    after the earlier ones have grown. *)
Example rewrite_three_imports :
  let code := "import a from 'vue'; import b from './b.js'; import c from 'lodash'" in
  rewriteImports
    (sample_lib code [static_import 15 18 "vue"; static_import 36 42 "./b.js";
                      static_import 60 66 "lodash"]) code
  = Ok "import a from '/@modules/vue'; import b from './b.js'; import c from '/@modules/lodash'".
Proof. reflexivity. Qed.

Example resolve_two_imports :
  let code := "import a from './a.js'; import b from '../lib/b.js'" in
  resolveImports
    (sample_lib code [static_import 15 21 "./a.js";
                      static_import 39 50 "../lib/b.js"])
    "/proj" code "/proj/src/pages"
  = Ok "import a from '/src/pages/a.js'; import b from '/src/lib/b.js'".
Proof. reflexivity. Qed.

(** ** Routing *)

(** Unfolds the operations of [M] until the collaborators' answers show. *)
Ltac run_m :=
  repeat progress
    (unfold try_catch, bind, readFile, stat_isFile, emit, lift, ret, throw;
     cbv beta iota).

Section Routing.
Import JsString.
Variable lib : Collaborators.
Variable rootDir : string.

Lemma drop_nil (k : nat) : drop k "" = "".
Proof. now destruct k. Qed.

Lemma last_char_drop (k : nat) (s p : string) :
  drop k s = p → p ≠ "" → last_char s = last_char p.
Proof.
  revert s; induction k as [|k IH]; intros s Hd Hp.
  - destruct s; simpl in Hd; now subst.
  - destruct s as [|c s]; simpl in Hd; [now subst|].
    rewrite <- (IH s Hd Hp).
    destruct s as [|c' s]; [|reflexivity].
    rewrite drop_nil in Hd. now subst.
Qed.

Lemma endsWith_last_char (s p : string) :
  endsWith s p = true → p ≠ "" → last_char s = last_char p.
Proof.
  unfold endsWith. intros H Hp.
  apply andb_prop in H as [_ H]. apply String.eqb_eq in H.
  exact (last_char_drop _ _ _ H Hp).
Qed.

Lemma endsWith_other (s p q : string) :
  endsWith s p = true → p ≠ "" → q ≠ "" → last_char p ≠ last_char q →
  endsWith s q = false.
Proof.
  intros Hp Hpn Hqn Hne.
  destruct (endsWith s q) eqn:Hq; [|reflexivity].
  apply endsWith_last_char in Hp, Hq; try assumption. congruence.
Qed.

(** A request whose URL ends in [.js] and does not contain [@modules]
    reaches the [.js] branch. *)
Lemma middleware_js (w : World) (url : string) :
  (indexOf url "@modules" >? -1)%Z = false →
  endsWith url ".js" = true →
  middleware lib rootDir w url = handle_js lib rootDir w url.
Proof.
  intros Hm Hjs. unfold middleware.
  destruct (String.eqb_spec url "/") as [->|_]; [discriminate Hjs|].
  rewrite Hm, Hjs.
  rewrite (endsWith_other url ".js" ".html" Hjs) by (simpl; congruence).
  reflexivity.
Qed.

(** A request whose URL ends in [.vue] and does not contain [@modules]
    reaches the [.vue] branch. *)
Lemma middleware_vue (w : World) (url : string) :
  (indexOf url "@modules" >? -1)%Z = false →
  endsWith url ".vue" = true →
  middleware lib rootDir w url = handle_vue lib rootDir w url.
Proof.
  intros Hm Hvue. unfold middleware.
  destruct (String.eqb_spec url "/") as [->|_]; [discriminate Hvue|].
  rewrite Hm, Hvue.
  rewrite (endsWith_other url ".vue" ".html" Hvue) by (simpl; congruence).
  rewrite (endsWith_other url ".vue" ".js" Hvue) by (simpl; congruence).
  rewrite (endsWith_other url ".vue" ".css" Hvue) by (simpl; congruence).
  reflexivity.
Qed.

(** The text served for a [.js] request is what [rewriteImports] makes
    of the file. *)
Lemma handle_js_served (w : World) (url : string) (st : Server)
    (code code' : string) :
  fs_readFile w (Path.join [rootDir; url]) = Ok code →
  rewriteImports lib code = Ok code' →
  handle_js lib rootDir w url st =
  (with_events st [ReadFile (Path.join [rootDir; url])],
   Ok {| ctx_status := None;
         ctx_type := Some "application/javascript";
         ctx_body := Some (BodyText code') |}).
Proof.
  intros Hread Hrw.
  unfold handle_js. run_m. rewrite Hread. run_m. now rewrite Hrw.
Qed.

End Routing.

(** What the [.js] branch serves. For a request that reaches the branch
    (its URL ends in [.js] and does not contain [@modules]) and a module
    whose import entries are in text order and do not overlap, the body of
    the response is the module text in which the span of every entry with
    a bare name, static or dynamic, is replaced by [/@modules/<name>] and
    every other byte is copied unchanged. *)
Theorem served_js_bare_specifiers
    (lib : Collaborators) (rootDir : string) (w : World) (url : string)
    (st : Server) (code : string) (imports : list Lexer.ImportSpecifier) :
  (JsString.indexOf url "@modules" >? -1)%Z = false →
  JsString.endsWith url ".js" = true →
  fs_readFile w (Path.join [rootDir; url]) = Ok code →
  parse lib code = Ok imports →
  spans_ok 0 (String.length code) imports = true →
  middleware lib rootDir w url st =
  (with_events st [ReadFile (Path.join [rootDir; url])],
   Ok {| ctx_status := None;
         ctx_type := Some "application/javascript";
         ctx_body :=
           Some (BodyText
                   (copy_and_substitute code 0 bare_replacement imports)) |}).
Proof.
  intros Hm Hjs Hread Hparse Hok.
  rewrite middleware_js by assumption.
  apply (handle_js_served lib rootDir w url st code); [exact Hread|].
  unfold rewriteImports. rewrite Hparse. simpl.
  now rewrite rewrite_loop.
Qed.

Lemma served_js_bare_specifiers_lodash :
  let code := "import _ from 'lodash'" in
  let lib := sample_lib code [static_import 15 21 "lodash"] in
  let w := one_file_world "/proj/src/main.js" code in
  ((JsString.indexOf "/src/main.js" "@modules" >? -1)%Z = false
   ∧ JsString.endsWith "/src/main.js" ".js" = true
   ∧ fs_readFile w (Path.join ["/proj"; "/src/main.js"]) = Ok code
   ∧ parse lib code = Ok [static_import 15 21 "lodash"]
   ∧ spans_ok 0 (String.length code) [static_import 15 21 "lodash"] = true)
  ∧ middleware lib "/proj" w "/src/main.js" fresh_server =
    (with_events fresh_server [ReadFile "/proj/src/main.js"],
     Ok {| ctx_status := None;
           ctx_type := Some "application/javascript";
           ctx_body := Some (BodyText "import _ from '/@modules/lodash'") |}).
Proof.
  intros code lib w.
  assert (H1 : (JsString.indexOf "/src/main.js" "@modules" >? -1)%Z = false)
    by reflexivity.
  assert (H2 : JsString.endsWith "/src/main.js" ".js" = true) by reflexivity.
  assert (H3 : fs_readFile w (Path.join ["/proj"; "/src/main.js"]) = Ok code)
    by reflexivity.
  assert (H4 : parse lib code = Ok [static_import 15 21 "lodash"])
    by reflexivity.
  assert (H5 : spans_ok 0 (String.length code) [static_import 15 21 "lodash"]
               = true) by reflexivity.
  split; [repeat split; assumption|].
  exact (served_js_bare_specifiers lib "/proj" w "/src/main.js" fresh_server
           code _ H1 H2 H3 H4 H5).
Defined.

(** C2. The static import of a bare name is rewritten as the
    specification says, but not every other byte is left as it was: in
    [import _ from 'lodash'; const m = await import('vue')] the span of the
    dynamic import is replaced too, and the served text ends in
    [import(/@modules/vue)] where the module has [import('vue')]. *)
Theorem static_bare_import_not_the_only_change :
  let code := "import _ from 'lodash'; const m = await import('vue')" in
  let imports := [static_import 15 21 "lodash"; dynamic_import 47 52 40 "vue"] in
  let lib := sample_lib code imports in
  spans_ok 0 (String.length code) imports = true
  ∧ middleware lib "/proj" (one_file_world "/proj/src/main.js" code)
      "/src/main.js" fresh_server =
    (with_events fresh_server [ReadFile "/proj/src/main.js"],
     Ok {| ctx_status := None;
           ctx_type := Some "application/javascript";
           ctx_body :=
             Some (BodyText
                     "import _ from '/@modules/lodash'; const m = await import(/@modules/vue)") |})
  ∧ "import _ from '/@modules/lodash'; const m = await import(/@modules/vue)"
    ≠ "import _ from '/@modules/lodash'; const m = await import('vue')".
Proof.
  repeat split; try reflexivity.
  intros H. discriminate H.
Qed.

(** ** The [.vue] branch *)

Lemma handle_vue_served (lib : Collaborators) (rootDir : string) (w : World)
    (url : string) (st : Server) (content templateContent : string) :
  fs_readFile w (Path.join [rootDir; url]) = Ok content →
  template_content lib (vueParse lib content) (Path.join [rootDir; url])
    = Ok templateContent →
  handle_vue lib rootDir w url st =
  (with_events st [ReadFile (Path.join [rootDir; url])],
   Ok {| ctx_status := None;
         ctx_type := Some "application/javascript";
         ctx_body :=
           Some (BodyText
                   (combinedCode (script_content (vueParse lib content))
                      templateContent)) |}).
Proof.
  intros Hread Htpl.
  unfold handle_vue. run_m. rewrite Hread. run_m. now rewrite Htpl.
Qed.

(** C3, as the specification states it, fails: for a component that has
    both blocks the served module is built from the text of [<script>],
    not from the text of [<script setup>]. *)
Lemma script_setup_not_emitted :
  Vue.script both_blocks = Some {| Vue.content := "export default { name: 'App' }" |}
  ∧ Vue.scriptSetup both_blocks = Some {| Vue.content := "const msg = 'hi'" |}
  ∧ middleware (vue_lib both_blocks) "/proj"
      (one_file_world "/proj/src/App.vue" "<script>...</script>")
      "/src/App.vue" fresh_server =
    (with_events fresh_server [ReadFile "/proj/src/App.vue"],
     Ok {| ctx_status := None;
           ctx_type := Some "application/javascript";
           ctx_body :=
             Some (BodyText
                     (combinedCode "export default { name: 'App' }" "")) |})
  ∧ combinedCode "export default { name: 'App' }" ""
    ≠ combinedCode "const msg = 'hi'" "".
Proof.
  repeat split; try reflexivity.
  intros H. discriminate H.
Qed.

(** C3, amended. When the descriptor has both a script block and a
    script-setup block, the served module holds the content of the script
    block, followed by the render function: [script] takes precedence over
    [scriptSetup]. *)
Theorem served_vue_script_precedence
    (lib : Collaborators) (rootDir : string) (w : World) (url : string)
    (st : Server) (content templateContent : string)
    (scriptBlock setupBlock : Vue.SFCBlock) :
  (JsString.indexOf url "@modules" >? -1)%Z = false →
  JsString.endsWith url ".vue" = true →
  fs_readFile w (Path.join [rootDir; url]) = Ok content →
  Vue.script (vueParse lib content) = Some scriptBlock →
  Vue.scriptSetup (vueParse lib content) = Some setupBlock →
  template_content lib (vueParse lib content) (Path.join [rootDir; url])
    = Ok templateContent →
  middleware lib rootDir w url st =
  (with_events st [ReadFile (Path.join [rootDir; url])],
   Ok {| ctx_status := None;
         ctx_type := Some "application/javascript";
         ctx_body :=
           Some (BodyText
                   (JsString.LF ++ "      " ++ Vue.content scriptBlock
                    ++ JsString.LF ++ "      " ++ templateContent
                    ++ JsString.LF ++ "                        ")) |}).
Proof.
  intros Hm Hvue Hread Hscript _ Htpl.
  rewrite middleware_vue by assumption.
  rewrite (handle_vue_served lib rootDir w url st content templateContent)
    by assumption.
  unfold script_content. rewrite Hscript. reflexivity.
Qed.

Lemma served_vue_script_precedence_both_blocks :
  let lib := vue_lib both_blocks in
  let w := one_file_world "/proj/src/App.vue" "<script>...</script>" in
  ((JsString.indexOf "/src/App.vue" "@modules" >? -1)%Z = false
   ∧ JsString.endsWith "/src/App.vue" ".vue" = true
   ∧ fs_readFile w (Path.join ["/proj"; "/src/App.vue"])
     = Ok "<script>...</script>"
   ∧ Vue.script (vueParse lib "<script>...</script>")
     = Some {| Vue.content := "export default { name: 'App' }" |}
   ∧ Vue.scriptSetup (vueParse lib "<script>...</script>")
     = Some {| Vue.content := "const msg = 'hi'" |}
   ∧ template_content lib (vueParse lib "<script>...</script>")
       (Path.join ["/proj"; "/src/App.vue"]) = Ok "")
  ∧ middleware lib "/proj" w "/src/App.vue" fresh_server =
    (with_events fresh_server [ReadFile "/proj/src/App.vue"],
     Ok {| ctx_status := None;
           ctx_type := Some "application/javascript";
           ctx_body :=
             Some (BodyText
                     (JsString.LF ++ "      export default { name: 'App' }"
                      ++ JsString.LF ++ "      "
                      ++ JsString.LF ++ "                        ")) |}).
Proof.
  intros lib w.
  split; [repeat split; reflexivity|].
  exact (served_vue_script_precedence lib "/proj" w "/src/App.vue"
           fresh_server "<script>...</script>" ""
           {| Vue.content := "export default { name: 'App' }" |}
           {| Vue.content := "const msg = 'hi'" |}
           eq_refl eq_refl eq_refl eq_refl eq_refl eq_refl).
Defined.

(** ** Modules the rewriters leave alone *)

Lemma rewriteImports_no_entries (lib : Collaborators) (code : string) :
  parse lib code = Ok [] → rewriteImports lib code = Ok code.
Proof. intros H. unfold rewriteImports. now rewrite H. Qed.

Lemma resolveImports_no_entries (lib : Collaborators) (cwd code dir : string) :
  parse lib code = Ok [] → resolveImports lib cwd code dir = Ok code.
Proof. intros H. unfold resolveImports. now rewrite H. Qed.

Lemma rewrite_loop_no_bare (code : string) (imports : list Lexer.ImportSpecifier) :
  no_bare_name imports = true → fold_right rewrite_step code imports = code.
Proof.
  induction imports as [|imp rest IH]; simpl; intros H; [reflexivity|].
  apply andb_prop in H as [Himp Hrest].
  rewrite (IH Hrest), rewrite_step_spec.
  now destruct (bare_replacement imp).
Qed.

(** A module none of whose entries has a bare name is served as it is. *)
Lemma rewriteImports_no_bare (lib : Collaborators) (code : string)
    (imports : list Lexer.ImportSpecifier) :
  parse lib code = Ok imports → no_bare_name imports = true →
  rewriteImports lib code = Ok code.
Proof.
  intros Hp Hn. unfold rewriteImports. rewrite Hp. simpl.
  now rewrite rewrite_loop_no_bare.
Qed.

Lemma toString_new (code : string) :
  MagicString.toString (MagicString.new code) = code.
Proof. unfold MagicString.toString. simpl. apply append_nil_r. Qed.

Lemma resolve_loop_dynamic (cwd code dir : string)
    (imports : list Lexer.ImportSpecifier) (m : MagicString.t) :
  forallb (fun imp => (Lexer.d imp >? -1)%Z) imports = true →
  fold_left (resolve_step cwd code dir) imports (Ok m) = Ok m.
Proof.
  induction imports as [|imp rest IH]; simpl; intros H; [reflexivity|].
  apply andb_prop in H as [Himp Hrest].
  rewrite Himp. exact (IH Hrest).
Qed.

(** [resolveImports] returns a module that has only dynamic imports as it
    is. *)
Lemma resolveImports_dynamic_only (lib : Collaborators) (cwd code dir : string)
    (imports : list Lexer.ImportSpecifier) :
  parse lib code = Ok imports →
  forallb (fun imp => (Lexer.d imp >? -1)%Z) imports = true →
  resolveImports lib cwd code dir = Ok code.
Proof.
  intros Hp Hd. unfold resolveImports. rewrite Hp. simpl.
  destruct imports as [|imp rest]; [reflexivity|].
  rewrite (resolve_loop_dynamic cwd code dir (imp :: rest) _ Hd). simpl.
  now rewrite toString_new.
Qed.

(** C4. The code rewrites a dynamic import whose specifier is a bare name:
    for [const m = await import('lodash')] the lexer reports the span of
    the quoted literal, [rewriteImports] replaces it, and the served text
    is [const m = await import(/@modules/lodash)]. [resolveImports], which
    tests [d > -1], returns the same module unchanged, and a dynamic import
    of a relative specifier is served unchanged. *)
Theorem dynamic_bare_import_rewritten :
  let code := "const m = await import('lodash')" in
  let lib := sample_lib code [dynamic_import 23 31 16 "lodash"] in
  let lazy := "const mod = await import('./lazy.js')" in
  let lazy_lib := sample_lib lazy [dynamic_import 25 36 18 "./lazy.js"] in
  middleware lib "/proj" (one_file_world "/proj/src/main.js" code)
    "/src/main.js" fresh_server =
  (with_events fresh_server [ReadFile "/proj/src/main.js"],
   Ok {| ctx_status := None;
         ctx_type := Some "application/javascript";
         ctx_body := Some (BodyText "const m = await import(/@modules/lodash)") |})
  ∧ rewriteImports lib code ≠ Ok code
  ∧ resolveImports lib "/proj" code "/proj/src" = Ok code
  ∧ rewriteImports lazy_lib lazy = Ok lazy.
Proof.
  repeat split; try reflexivity.
  intros H. discriminate H.
Qed.

(** C9. A text without any static import is not always returned as it
    is: [import('vue').then(start)] has one entry, a dynamic one, and
    [rewriteImports] returns [import(/@modules/vue).then(start)]. *)
Theorem no_static_import_yet_rewritten :
  let code := "import('vue').then(start)" in
  let imports := [dynamic_import 7 12 0 "vue"] in
  let lib := sample_lib code imports in
  no_static_import imports = true
  ∧ rewriteImports lib code = Ok "import(/@modules/vue).then(start)"
  ∧ rewriteImports lib code ≠ Ok code.
Proof.
  repeat split; try reflexivity.
  intros H. discriminate H.
Qed.

(** ** [resolveImports] and the edits of magic-string *)

Section ResolveImports.
Import JsString.
Local Arguments String.append !s1 s2 : simpl nomatch.

Lemma chunks_text_app (a b : list MagicString.Chunk) :
  chunks_text (a ++ b) = chunks_text a ++ chunks_text b.
Proof.
  induction a as [|c a IH]; simpl; [reflexivity|].
  now rewrite IH, append_assoc.
Qed.

Lemma slice_slice (s : string) (a b c : nat) :
  a <= b → b <= c → slice s a b ++ slice s b c = slice s a c.
Proof.
  intros Hab Hbc. unfold slice.
  replace (drop b s) with (drop (b - a) (drop a s))
    by (rewrite drop_drop; f_equal; lia).
  generalize (drop a s) as u. intros u.
  pose proof (take_slice u (b - a) (c - a)) as H. unfold slice in H.
  replace (c - a - (b - a)) with (c - b) in H by lia.
  apply H. lia.
Qed.

Lemma slice_refl (s : string) (a : nat) : slice s a a = "".
Proof. unfold slice. rewrite Nat.sub_diag. reflexivity. Qed.

(** Splitting at an offset that no chunk of [P] contains leaves [P] as it
    is. *)
Lemma split_past (P cs : list MagicString.Chunk) (q index : nat) :
  Forall (chunk_before q) P → q <= index →
  MagicString.split (P ++ cs) index =
  result_bind (MagicString.split cs index) (fun cs' => Ok (P ++ cs')%list).
Proof.
  intros HP Hq. induction HP as [|c P [Hs He] _ IH]; simpl.
  - now destruct (MagicString.split cs index).
  - replace (index <? MagicString.c_end c)%nat with false
      by (symmetry; apply Nat.ltb_ge; lia).
    rewrite andb_false_r, IH.
    now destruct (MagicString.split cs index).
Qed.

Lemma overwrite_past (P : list MagicString.Chunk) (q start end_ : nat)
    (content : string) :
  Forall (chunk_before q) P → q <= start →
  map (MagicString.overwrite_chunk start end_ content) P = P.
Proof.
  intros HP Hq. induction HP as [|c P [Hs He] _ IH]; simpl; [reflexivity|].
  rewrite IH. f_equal. unfold MagicString.overwrite_chunk.
  replace (MagicString.c_start c =? start)%nat with false
    by (symmetry; apply Nat.eqb_neq; lia).
  replace (start <? MagicString.c_start c)%nat with false
    by (symmetry; apply Nat.ltb_ge; lia).
  reflexivity.
Qed.

(** Splitting the tail chunk at [index]. *)
Lemma split_tail (code : string) (q index : nat) :
  q <= index → index <= String.length code →
  MagicString.split [tail_chunk code q] index =
  Ok (if (q <? index)%nat && (index <? String.length code)%nat then
        [ {| MagicString.c_start := q; MagicString.c_end := index;
             MagicString.c_original := slice code q index;
             MagicString.c_content := slice code q index;
             MagicString.c_edited := false |};
          tail_chunk code index ]
      else [tail_chunk code q]).
Proof.
  intros Hq Hi. simpl.
  destruct ((q <? index)%nat && (index <? String.length code)%nat) eqn:Hc;
    [|reflexivity].
  unfold MagicString.split_chunk, tail_chunk. simpl.
  apply andb_prop in Hc as [Hc _]. apply Nat.ltb_lt in Hc.
  rewrite slice_0. unfold slice_from. rewrite drop_drop.
  replace (q + (index - q)) with index by lia.
  reflexivity.
Qed.

Lemma chunk_before_mono (q q' : nat) (P : list MagicString.Chunk) :
  q <= q' → Forall (chunk_before q) P → Forall (chunk_before q') P.
Proof.
  intros Hq HP. eapply Forall_impl; [exact HP|].
  intros c [Hs He]. split; lia.
Qed.

Lemma slice_drop (s : string) (a b : nat) :
  a <= b → slice s a b ++ drop b s = drop a s.
Proof.
  intros H. unfold slice.
  replace (drop b s) with (drop (b - a) (drop a s))
    by (rewrite drop_drop; f_equal; lia).
  apply take_drop.
Qed.

Lemma drop_all (s : string) : drop (String.length s) s = "".
Proof. induction s as [|c s IH]; simpl; [reflexivity | exact IH]. Qed.

(** One [overwrite] on a text whose chunks before [q] are settled and
    whose remainder is one untouched chunk. *)
Lemma overwrite_tail (code : string) (P : list MagicString.Chunk)
    (q start end_ : nat) (content : string) :
  Forall (chunk_before q) P →
  q <= start → start < end_ → end_ <= String.length code →
  ∃ cs,
    MagicString.overwrite
      {| MagicString.original := code;
         MagicString.chunks := P ++ [tail_chunk code q] |}
      start end_ content
    = Ok {| MagicString.original := code; MagicString.chunks := cs |}
    ∧ (end_ < String.length code →
       ∃ P', cs = (P' ++ [tail_chunk code end_])%list
             ∧ Forall (chunk_before end_) P'
             ∧ chunks_text P' = chunks_text P ++ slice code q start ++ content)
    ∧ (end_ = String.length code →
       chunks_text cs = chunks_text P ++ slice code q start ++ content).
Proof.
  intros HP Hq Hse He.
  unfold MagicString.overwrite. cbn [MagicString.original MagicString.chunks].
  replace (String.length code <? end_)%nat with false
    by (symmetry; apply Nat.ltb_ge; lia).
  replace (start =? end_)%nat with false by (symmetry; apply Nat.eqb_neq; lia).
  replace (end_ <? start)%nat with false by (symmetry; apply Nat.ltb_ge; lia).
  rewrite (split_past P _ q start HP Hq), split_tail by lia.
  cbn [result_bind].
  (* the chunks before [start] *)
  set (A := {| MagicString.c_start := q; MagicString.c_end := start;
               MagicString.c_original := slice code q start;
               MagicString.c_content := slice code q start;
               MagicString.c_edited := false |}).
  assert (Hfront : ∃ PA,
    (P ++ (if (q <? start)%nat && (start <? String.length code)%nat
           then [A; tail_chunk code start] else [tail_chunk code q]))%list
    = (PA ++ [tail_chunk code start])%list
    ∧ Forall (chunk_before start) PA
    ∧ chunks_text PA = chunks_text P ++ slice code q start).
  { destruct (Nat.ltb_spec q start) as [Hlt|Hge].
    - replace (start <? String.length code)%nat with true
        by (symmetry; apply Nat.ltb_lt; lia).
      exists (P ++ [A])%list. cbn [andb]. split; [|split].
      + now rewrite <- app_assoc.
      + apply Forall_app. split.
        * exact (chunk_before_mono q start P Hq HP).
        * constructor; [|constructor]. split; simpl; lia.
      + rewrite chunks_text_app. simpl. now rewrite append_nil_r.
    - assert (q = start) as -> by lia.
      exists P. cbn [andb]. split; [reflexivity|split].
      + exact HP.
      + now rewrite slice_refl, append_nil_r. }
  destruct Hfront as (PA & -> & HPA & HtextPA).
  rewrite (split_past PA _ start end_ HPA) by lia.
  rewrite split_tail by lia.
  cbn [result_bind].
  destruct (Nat.ltb_spec end_ (String.length code)) as [Hlt|Hge].
  - replace (start <? end_)%nat with true by (symmetry; apply Nat.ltb_lt; lia).
    cbn [andb].
    eexists. split; [reflexivity|]. split; [|intros; lia].
    intros _. rewrite map_app, (overwrite_past PA start) by (assumption || lia).
    set (B := MagicString.edit content
                {| MagicString.c_start := start; MagicString.c_end := end_;
                   MagicString.c_original := slice code start end_;
                   MagicString.c_content := slice code start end_;
                   MagicString.c_edited := false |}).
    exists (PA ++ [B])%list. split; [|split].
    + rewrite <- app_assoc. f_equal. simpl.
      unfold MagicString.overwrite_chunk at 1. simpl.
      rewrite Nat.eqb_refl. fold B. f_equal.
      unfold MagicString.overwrite_chunk. simpl.
      replace (end_ =? start)%nat with false
        by (symmetry; apply Nat.eqb_neq; lia).
      replace (String.length code <=? end_)%nat with false
        by (symmetry; apply Nat.leb_gt; lia).
      now rewrite andb_false_r.
    + apply Forall_app. split.
      * apply (chunk_before_mono start end_ PA); [lia | exact HPA].
      * constructor; [|constructor]. split; simpl; lia.
    + rewrite chunks_text_app, HtextPA. simpl.
      now rewrite append_nil_r, append_assoc.
  - assert (end_ = String.length code) as Heq by lia.
    rewrite andb_false_r.
    eexists. split; [reflexivity|]. split; [intros; lia|].
    intros _. rewrite map_app, (overwrite_past PA start) by (assumption || lia).
    rewrite chunks_text_app, HtextPA. simpl.
    unfold MagicString.overwrite_chunk. simpl. rewrite Nat.eqb_refl. simpl.
    now rewrite append_nil_r, append_assoc.
Qed.

Lemma spans_strict_at_end (len : nat) (imports : list Lexer.ImportSpecifier) :
  spans_strict len len imports = true → imports = [].
Proof.
  destruct imports as [|imp rest]; [reflexivity|]. simpl. intros H.
  apply andb_prop in H as [H _]. apply andb_prop in H as [H He].
  apply andb_prop in H as [Hlo Hse].
  apply Nat.leb_le in Hlo, He. apply Nat.ltb_lt in Hse. lia.
Qed.

(** The loop of [resolveImports], started where everything before [q] is
    settled and the entries still to come begin at [lo] or later. *)
Lemma resolve_loop_from (cwd code dir : string)
    (imports : list Lexer.ImportSpecifier) :
  ∀ (lo q : nat) (P : list MagicString.Chunk),
    q <= lo → Forall (chunk_before q) P →
    spans_strict lo (String.length code) imports = true →
    ∃ m,
      fold_left (resolve_step cwd code dir) imports
        (Ok {| MagicString.original := code;
               MagicString.chunks := P ++ [tail_chunk code q] |}) = Ok m
      ∧ MagicString.toString m =
        chunks_text P ++ slice code q lo
        ++ copy_and_substitute code lo (resolved_replacement cwd code dir)
             imports.
Proof.
  induction imports as [|imp rest IH]; intros lo q P Hq HP Hok.
  - eexists. split; [reflexivity|].
    change (MagicString.toString ?m) with (chunks_text (MagicString.chunks m)).
    cbn [MagicString.chunks copy_and_substitute].
    rewrite chunks_text_app. simpl. unfold slice_from.
    now rewrite append_nil_r, slice_drop.
  - simpl in Hok.
    apply andb_prop in Hok as [Hok Hrest].
    apply andb_prop in Hok as [Hok He].
    apply andb_prop in Hok as [Hlo Hse].
    apply Nat.leb_le in Hlo, He. apply Nat.ltb_lt in Hse.
    cbn [fold_left copy_and_substitute].
    unfold resolve_step at 2. cbn [result_bind].
    unfold resolved_replacement.
    destruct (Lexer.d imp >? -1)%Z.
    { destruct (IH (Lexer.e imp) q P) as (m & Hm & Hs);
        [lia | exact HP | exact Hrest |].
      exists m. split; [exact Hm|]. rewrite Hs.
      rewrite <- (slice_slice code q lo (Lexer.e imp)) by lia.
      rewrite <- (slice_slice code lo (Lexer.s imp) (Lexer.e imp)) by lia.
      now rewrite !append_assoc. }
    destruct (startsWith (substring code (Lexer.s imp) (Lexer.e imp)) "/").
    { destruct (IH (Lexer.e imp) q P) as (m & Hm & Hs);
        [lia | exact HP | exact Hrest |].
      exists m. split; [exact Hm|]. rewrite Hs.
      rewrite <- (slice_slice code q lo (Lexer.e imp)) by lia.
      rewrite <- (slice_slice code lo (Lexer.s imp) (Lexer.e imp)) by lia.
      now rewrite !append_assoc. }
    set (content := "/" ++ backslashes_to_slashes _).
    destruct (overwrite_tail code P q (Lexer.s imp) (Lexer.e imp) content)
      as (cs & Hov & Hmid & Hend); [exact HP | lia | lia | lia |].
    rewrite Hov.
    destruct (Nat.ltb_spec (Lexer.e imp) (String.length code)) as [Hlt|Hge].
    + destruct (Hmid Hlt) as (P' & -> & HP' & Htext).
      destruct (IH (Lexer.e imp) (Lexer.e imp) P') as (m & Hm & Hs);
        [lia | exact HP' | exact Hrest |].
      exists m. split; [exact Hm|]. rewrite Hs, Htext, slice_refl.
      rewrite <- (slice_slice code q lo (Lexer.s imp)) by lia.
      now rewrite !append_assoc.
    + assert (Lexer.e imp = String.length code) as Heq by lia.
      rewrite Heq in Hrest.
      rewrite (spans_strict_at_end _ _ Hrest).
      eexists. split; [reflexivity|].
      change (MagicString.toString ?m) with (chunks_text (MagicString.chunks m)).
      cbn [MagicString.chunks copy_and_substitute].
      rewrite (Hend Heq). unfold slice_from. rewrite Heq, drop_all.
      rewrite <- (slice_slice code q lo (Lexer.s imp)) by lia.
      now rewrite !append_assoc, append_nil_r.
Qed.

End ResolveImports.

(** C1, as the specification states it, fails: the [.js] branch serves a
    module at [/src/app.js] that imports [./foo.js] with that specifier
    unchanged. *)
Lemma served_js_relative_specifier_unchanged :
  let code := "import foo from './foo.js'" in
  let lib := sample_lib code [static_import 17 25 "./foo.js"] in
  middleware lib "/proj" (one_file_world "/proj/src/app.js" code)
    "/src/app.js" fresh_server =
  (with_events fresh_server [ReadFile "/proj/src/app.js"],
   Ok {| ctx_status := None;
         ctx_type := Some "application/javascript";
         ctx_body := Some (BodyText "import foo from './foo.js'") |})
  ∧ "import foo from './foo.js'" ≠ "import foo from '/src/foo.js'".
Proof.
  split; [reflexivity|]. intros H. discriminate H.
Qed.

(** The edits of [resolveImports]. For entries in text order that do
    not overlap and have non-empty spans, the call returns the module text
    in which the span of every entry that is not dynamic and whose text
    does not begin with [/] is replaced, and every other byte is copied
    unchanged. *)
Theorem resolveImports_rewrites_relative
    (lib : Collaborators) (cwd code currentDir : string)
    (imports : list Lexer.ImportSpecifier) :
  parse lib code = Ok imports →
  spans_strict 0 (String.length code) imports = true →
  resolveImports lib cwd code currentDir =
  Ok (copy_and_substitute code 0
        (resolved_replacement cwd code currentDir) imports).
Proof.
  intros Hp Hok. unfold resolveImports. rewrite Hp. cbn [result_bind].
  destruct imports as [|imp rest]; [reflexivity|].
  destruct (resolve_loop_from cwd code currentDir (imp :: rest) 0 0 [])
    as (m & Hm & Hs); [lia | constructor | exact Hok |].
  change (MagicString.new code)
    with {| MagicString.original := code;
            MagicString.chunks := [] ++ [tail_chunk code 0] |}.
  rewrite Hm. cbn [result_bind]. rewrite Hs.
  reflexivity.
Qed.

Lemma spans_strict_ok (lo len : nat) (imports : list Lexer.ImportSpecifier) :
  spans_strict lo len imports = true → spans_ok lo len imports = true.
Proof.
  revert lo. induction imports as [|imp rest IH]; intros lo H; [reflexivity|].
  simpl in *.
  apply andb_prop in H as [H Hrest]. apply andb_prop in H as [H He].
  apply andb_prop in H as [Hlo Hse]. apply Nat.ltb_lt in Hse.
  rewrite Hlo, He, (IH _ Hrest).
  replace (Lexer.s imp <=? Lexer.e imp)%nat with true
    by (symmetry; apply Nat.leb_le; lia).
  reflexivity.
Qed.

(** Without [import.meta] entries the entries [resolveImports] replaces are
    the static imports. *)
Lemma static_replacement_agrees (cwd code dir : string)
    (imports : list Lexer.ImportSpecifier) :
  no_import_meta imports = true →
  ∀ pos,
    copy_and_substitute code pos (resolved_replacement cwd code dir) imports
    = copy_and_substitute code pos (static_replacement cwd code dir) imports.
Proof.
  induction imports as [|imp rest IH]; intros H pos; [reflexivity|].
  simpl in H. apply andb_prop in H as [Hd Hrest]. apply Z.leb_le in Hd.
  cbn [copy_and_substitute]. rewrite (IH Hrest).
  assert (Heq : resolved_replacement cwd code dir imp
                = static_replacement cwd code dir imp).
  { unfold resolved_replacement, static_replacement.
    destruct (Z.eqb_spec (Lexer.d imp) (-1)) as [->|Hne]; [reflexivity|].
    replace (Lexer.d imp >? -1)%Z with true; [reflexivity|].
    symmetry. apply Z.gtb_lt. lia. }
  now rewrite Heq.
Qed.

(** C1, amended. For a served [.js] module whose import entries are
    static or dynamic imports, in text order, not overlapping and with
    non-empty spans: the [.js] branch replaces only the spans of the
    entries with a bare name, so that an import whose specifier begins with
    a dot is served unchanged; and [resolveImports], which the branch does
    not call, returns the module text in which the span of every static
    import whose specifier does not begin with [/] is replaced by a slash
    followed by the path of the specifier, resolved against the directory
    given, relative to the working directory, with forward slashes, every
    other byte being copied unchanged. *)
Theorem relative_specifier_served_and_resolved
    (lib : Collaborators) (rootDir cwd : string) (w : World) (url : string)
    (st : Server) (code currentDir : string)
    (imports : list Lexer.ImportSpecifier) :
  (JsString.indexOf url "@modules" >? -1)%Z = false →
  JsString.endsWith url ".js" = true →
  fs_readFile w (Path.join [rootDir; url]) = Ok code →
  parse lib code = Ok imports →
  spans_strict 0 (String.length code) imports = true →
  no_import_meta imports = true →
  middleware lib rootDir w url st =
    (with_events st [ReadFile (Path.join [rootDir; url])],
     Ok {| ctx_status := None;
           ctx_type := Some "application/javascript";
           ctx_body :=
             Some (BodyText
                     (copy_and_substitute code 0 bare_replacement imports)) |})
  ∧ (∀ imp name,
       imp ∈ imports → Lexer.n imp = Some name →
       JsString.startsWith name "." = true →
       bare_replacement imp = None)
  ∧ resolveImports lib cwd code currentDir =
    Ok (copy_and_substitute code 0
          (static_replacement cwd code currentDir) imports).
Proof.
  intros Hm Hjs Hread Hparse Hok Hmeta. split; [|split].
  - apply (served_js_bare_specifiers lib rootDir w url st code imports);
      try assumption.
    now apply spans_strict_ok.
  - intros imp name _ Hn Hdot. unfold bare_replacement, is_bare.
    rewrite Hn, Hdot. now rewrite andb_false_r.
  - rewrite (resolveImports_rewrites_relative lib cwd code currentDir imports)
      by assumption.
    now rewrite static_replacement_agrees.
Qed.

Lemma relative_specifier_served_and_resolved_foo :
  let code := "import foo from './foo.js'" in
  let imports := [static_import 17 25 "./foo.js"] in
  let lib := sample_lib code imports in
  let w := one_file_world "/proj/src/app.js" code in
  let currentDir := Path.dirname (Path.join ["/proj"; "/src/app.js"]) in
  ((JsString.indexOf "/src/app.js" "@modules" >? -1)%Z = false
   ∧ JsString.endsWith "/src/app.js" ".js" = true
   ∧ fs_readFile w (Path.join ["/proj"; "/src/app.js"]) = Ok code
   ∧ parse lib code = Ok imports
   ∧ spans_strict 0 (String.length code) imports = true
   ∧ no_import_meta imports = true)
  ∧ (middleware lib "/proj" w "/src/app.js" fresh_server =
       (with_events fresh_server [ReadFile "/proj/src/app.js"],
        Ok {| ctx_status := None;
              ctx_type := Some "application/javascript";
              ctx_body := Some (BodyText "import foo from './foo.js'") |})
     ∧ (∀ imp name,
          imp ∈ imports → Lexer.n imp = Some name →
          JsString.startsWith name "." = true →
          bare_replacement imp = None)
     ∧ resolveImports lib "/proj" code currentDir
       = Ok "import foo from '/src/foo.js'").
Proof.
  intros code imports lib w currentDir.
  split; [repeat split; reflexivity|].
  exact (relative_specifier_served_and_resolved lib "/proj" "/proj" w
           "/src/app.js" fresh_server code currentDir imports
           eq_refl eq_refl eq_refl eq_refl eq_refl eq_refl).
Defined.

(** ** The [/@modules/] branch *)

Section Modules.
Import JsString.
Variable lib : Collaborators.
Variable rootDir : string.

Lemma with_events_app (st : Server) (evs evs' : list Event) :
  with_events (with_events st evs) evs' = with_events st (evs ++ evs').
Proof. unfold with_events. simpl. now rewrite app_assoc. Qed.

Lemma modules_url_id (name : string) : slice_from ("/@modules/" ++ name) 10 = name.
Proof. reflexivity. Qed.

(** A request for [/@modules/<name>] reaches the [/@modules/] branch, and
    the package the branch works on is [name]. *)
Lemma middleware_modules (w : World) (name : string) :
  middleware lib rootDir w ("/@modules/" ++ name)
  = handle_modules lib rootDir w ("/@modules/" ++ name).
Proof. reflexivity. Qed.

Lemma resolveBareModule_spec (w : World) (id : string) (st : Server) :
  resolveBareModule lib rootDir w id st =
  match resolved_entry lib rootDir w id with
  | Ok filepath =>
      (with_events st [ReadFile (manifest_path rootDir id)], Ok filepath)
  | Throw err => (with_events st (resolve_failure_events rootDir id), Throw err)
  end.
Proof.
  unfold resolveBareModule, resolved_entry, read_manifest,
    resolve_failure_events.
  fold (manifest_path rootDir id). run_m.
  destruct (fs_readFile w (manifest_path rootDir id)) as [text|err];
    cbn [result_bind].
  2: { unfold with_events. simpl. now rewrite <- app_assoc. }
  destruct (JSON_parse lib text) as [pkg|err]; cbn [result_bind].
  2: { unfold with_events. simpl. now rewrite <- app_assoc. }
  destruct (entry_point pkg) as [v|err]; cbn [result_bind].
  2: { unfold with_events. simpl. now rewrite <- app_assoc. }
  destruct (join_entry rootDir id v) as [f|err]; [reflexivity|].
  unfold with_events. simpl. now rewrite <- app_assoc.
Qed.

Lemma optimizeDep_hit (w : World) (id filepath text : string) (st : Server) :
  depCache st !! id = Some text →
  optimizeDep w id filepath st = (with_events st [CacheHas id], Ok text).
Proof.
  intros H. unfold optimizeDep, optimizeDep_enter. run_m. simpl.
  now rewrite H.
Qed.

Lemma optimizeDep_miss (w : World) (id filepath : string) (st : Server) :
  depCache st !! id = None →
  optimizeDep w id filepath st =
  match esbuild_build w filepath with
  | Ok optimized =>
      ({| depCache := <[id := optimized]> (depCache st);
          trace := trace st ++ miss_events id filepath |}, Ok optimized)
  | Throw err =>
      (with_events st
         (miss_events id filepath ++ [ConsoleError ("Failed to optimize: " ++ id)]),
       Throw err)
  end.
Proof.
  intros H. unfold optimizeDep, optimizeDep_enter, optimizeDep_settle.
  run_m. simpl. rewrite H. run_m. simpl.
  destruct (esbuild_build w filepath) as [optimized|err]; run_m; simpl;
    unfold with_events, miss_events; simpl; now rewrite <- !app_assoc.
Qed.

(** What the branch answers when the resolver fails. *)
Lemma handle_modules_unresolved (w : World) (name : string) (st : Server)
    (err : JsError) :
  resolved_entry lib rootDir w name = Throw err →
  middleware lib rootDir w ("/@modules/" ++ name) st =
  (with_events st (resolve_failure_events rootDir name), Ok (not_found name)).
Proof.
  intros H. rewrite middleware_modules. unfold handle_modules.
  rewrite modules_url_id. unfold try_catch at 1, bind at 1.
  rewrite resolveBareModule_spec, H. reflexivity.
Qed.

(** The manifest is read before anything else happens. *)
Lemma handle_modules_reads_manifest_first (w : World) (name : string)
    (st : Server) :
  ∃ evs,
    trace (middleware lib rootDir w ("/@modules/" ++ name) st).1
    = (trace st ++ ReadFile (manifest_path rootDir name) :: evs)%list.
Proof.
  rewrite middleware_modules. unfold handle_modules.
  rewrite modules_url_id. unfold try_catch at 1, bind at 1.
  rewrite resolveBareModule_spec.
  destruct (resolved_entry lib rootDir w name) as [filepath|err].
  - unfold bind, ret.
    destruct (optimizeDep w name filepath
                (with_events st [ReadFile (manifest_path rootDir name)]))
      as [st' r] eqn:Hopt.
    assert (Hst : ∃ evs, trace st' = (trace st
                    ++ ReadFile (manifest_path rootDir name) :: evs)%list).
    { destruct (depCache st !! name) as [text|] eqn:Hc.
      - rewrite (optimizeDep_hit w name filepath text) in Hopt by exact Hc.
        injection Hopt as <- _. eexists. simpl.
        now rewrite <- app_assoc.
      - rewrite optimizeDep_miss in Hopt by exact Hc.
        destruct (esbuild_build w filepath); injection Hopt as <- _;
          eexists; simpl; now rewrite <- app_assoc. }
    destruct r; exact Hst.
  - eexists. reflexivity.
Qed.

End Modules.

Example entry_point_module_first :
  entry_point (JObj [("main", JStr "index.js"); ("module", JStr "index.esm.js")])
  = Ok (JsJson (JStr "index.esm.js")).
Proof. reflexivity. Qed.

Example entry_point_main :
  entry_point (JObj [("name", JStr "lodash"); ("main", JStr "lodash.js")])
  = Ok (JsJson (JStr "lodash.js")).
Proof. reflexivity. Qed.

Example entry_point_default :
  entry_point (JObj [("name", JStr "tiny")]) = Ok (JsJson (JStr "index.js")).
Proof. reflexivity. Qed.

Example react_entry :
  resolved_entry react_lib "/proj" (react_world (Throw build_failed)) "react"
  = Ok "/proj/node_modules/react/index.esm.js".
Proof. reflexivity. Qed.

(** C8, as the specification states it, fails: the error with which the
    resolution fails is the one [JSON.parse] threw, and neither its name
    nor its message holds the name of the package. *)
Lemma unparsable_manifest_error_names_no_package :
  resolveBareModule (sample_lib "" []) "/proj"
    (react_world (Throw build_failed)) "react" fresh_server =
    (with_events fresh_server
       [ReadFile "/proj/node_modules/react/package.json";
        ConsoleError "Cannot resolve bare module: react"],
     Throw syntax_error)
  ∧ JsString.indexOf (err_name syntax_error) "react" = (-1)%Z
  ∧ JsString.indexOf (err_message syntax_error) "react" = (-1)%Z.
Proof. repeat split; reflexivity. Qed.

(** C8, amended. When the manifest of a package is missing or cannot be
    parsed, [resolveBareModule] reports [Cannot resolve bare module: <name>]
    on the console and fails with the very error the read or [JSON.parse]
    threw, and the request for [/@modules/<name>] completes with status 404
    and the body [Module not found: <name>]; the middleware returns, it
    does not reject. *)
Theorem unresolved_module_is_404
    (lib : Collaborators) (rootDir : string) (w : World) (name : string)
    (st : Server) (err : JsError) :
  read_manifest lib rootDir w name = Throw err →
  resolveBareModule lib rootDir w name st =
    (with_events st
       [ReadFile (manifest_path rootDir name);
        ConsoleError ("Cannot resolve bare module: " ++ name)],
     Throw err)
  ∧ middleware lib rootDir w ("/@modules/" ++ name) st =
    (with_events st
       [ReadFile (manifest_path rootDir name);
        ConsoleError ("Cannot resolve bare module: " ++ name)],
     Ok {| ctx_status := Some 404;
           ctx_type := None;
           ctx_body := Some (BodyText ("Module not found: " ++ name)) |}).
Proof.
  intros H.
  assert (Hr : resolved_entry lib rootDir w name = Throw err)
    by (unfold resolved_entry; now rewrite H).
  split.
  - rewrite resolveBareModule_spec, Hr. reflexivity.
  - exact (handle_modules_unresolved lib rootDir w name st err Hr).
Qed.

Lemma unresolved_module_is_404_does_not_exist :
  let w := react_world (Throw build_failed) in
  read_manifest react_lib "/proj" w "does-not-exist" = Throw enoent
  ∧ (resolveBareModule react_lib "/proj" w "does-not-exist" fresh_server =
       (with_events fresh_server
          [ReadFile "/proj/node_modules/does-not-exist/package.json";
           ConsoleError "Cannot resolve bare module: does-not-exist"],
        Throw enoent)
     ∧ middleware react_lib "/proj" w "/@modules/does-not-exist" fresh_server =
       (with_events fresh_server
          [ReadFile "/proj/node_modules/does-not-exist/package.json";
           ConsoleError "Cannot resolve bare module: does-not-exist"],
        Ok {| ctx_status := Some 404;
              ctx_type := None;
              ctx_body := Some (BodyText "Module not found: does-not-exist") |})).
Proof.
  intros w. split; [reflexivity|].
  exact (unresolved_module_is_404 react_lib "/proj" w "does-not-exist"
           fresh_server enoent eq_refl).
Defined.

(** C10. Every request for [/@modules/<name>] begins by reading the
    manifest of the package, whatever the cache holds; so when the bundled
    text of the package is cached and the manifest cannot be read or
    parsed, the request completes with status 404, the cache is never
    consulted and the cached text is not served. *)
Theorem cached_module_unresolved_is_404
    (lib : Collaborators) (rootDir : string) (w : World) (name : string)
    (st : Server) (text : string) (err : JsError) :
  depCache st !! name = Some text →
  read_manifest lib rootDir w name = Throw err →
  middleware lib rootDir w ("/@modules/" ++ name) st =
    (with_events st
       [ReadFile (manifest_path rootDir name);
        ConsoleError ("Cannot resolve bare module: " ++ name)],
     Ok {| ctx_status := Some 404;
           ctx_type := None;
           ctx_body := Some (BodyText ("Module not found: " ++ name)) |})
  ∧ ∀ (w' : World) (st' : Server),
      ∃ evs,
        trace (middleware lib rootDir w' ("/@modules/" ++ name) st').1
        = (trace st' ++ ReadFile (manifest_path rootDir name) :: evs)%list.
Proof.
  intros _ H. split.
  - apply (handle_modules_unresolved lib rootDir w name st err).
    unfold resolved_entry. now rewrite H.
  - intros w' st'. apply handle_modules_reads_manifest_first.
Qed.

Lemma cached_module_unresolved_is_404_react :
  let w := one_file_world "/proj/index.html" "" in
  (depCache react_cached !! "react" = Some "export default React"
   ∧ read_manifest react_lib "/proj" w "react" = Throw enoent)
  ∧ (middleware react_lib "/proj" w "/@modules/react" react_cached =
       (with_events react_cached
          [ReadFile "/proj/node_modules/react/package.json";
           ConsoleError "Cannot resolve bare module: react"],
        Ok {| ctx_status := Some 404;
              ctx_type := None;
              ctx_body := Some (BodyText "Module not found: react") |})
     ∧ ∀ (w' : World) (st' : Server),
         ∃ evs,
           trace (middleware react_lib "/proj" w' "/@modules/react" st').1
           = (trace st' ++ ReadFile "/proj/node_modules/react/package.json"
                :: evs)%list).
Proof.
  intros w.
  assert (Hc : depCache react_cached !! "react" = Some "export default React")
    by apply lookup_singleton_eq.
  split; [split; [exact Hc | reflexivity]|].
  exact (cached_module_unresolved_is_404 react_lib "/proj" w "react"
           react_cached "export default React" enoent Hc eq_refl).
Defined.




(** ** The pre-bundle cache under interleaving *)

Section Interleaving.

Lemma step_call_miss (id filepath : string) (sys : Sys) :
  depCache (server sys) !! id = None →
  step (Call id filepath) sys =
  ({| server := with_events (server sys) (miss_events id filepath);
      inflight := inflight sys
                  ++ [ {| p_id := id; p_filepath := filepath |} ] |}, None).
Proof.
  intros H. unfold step, optimizeDep_enter. run_m. simpl. rewrite H.
  run_m. simpl. unfold with_events, miss_events. simpl.
  now rewrite <- !app_assoc.
Qed.

Lemma step_call_hit (id filepath text : string) (sys : Sys) :
  depCache (server sys) !! id = Some text →
  step (Call id filepath) sys =
  ({| server := with_events (server sys) [CacheHas id];
      inflight := inflight sys |}, Some (returned id text)).
Proof.
  intros H. unfold step, optimizeDep_enter. run_m. simpl. now rewrite H.
Qed.

Lemma step_settle_ok (k : nat) (p : Pending) (text : string) (sys : Sys) :
  inflight sys !! k = Some p →
  step (Settle k (Ok text)) sys =
  ({| server := {| depCache := <[p_id p := text]> (depCache (server sys));
                   trace := trace (server sys) |};
      inflight := delete k (inflight sys) |}, Some (returned (p_id p) text)).
Proof. intros H. unfold step. now rewrite H. Qed.

Lemma step_settle_throw (k : nat) (p : Pending) (err : JsError) (sys : Sys) :
  inflight sys !! k = Some p →
  step (Settle k (Throw err)) sys =
  ({| server := with_events (server sys)
                  [ConsoleError ("Failed to optimize: " ++ p_id p)];
      inflight := delete k (inflight sys) |},
   Some {| f_id := p_id p; f_result := Throw err |}).
Proof. intros H. unfold step. rewrite H. reflexivity. Qed.

Lemma builds_of_app (id : string) (tr tr' : list Event) :
  builds_of id (tr ++ tr') = (builds_of id tr ++ builds_of id tr')%list.
Proof. unfold builds_of. apply omap_app. Qed.

Lemma builds_of_miss (id filepath : string) :
  builds_of id (miss_events id filepath) = [filepath].
Proof. unfold builds_of. simpl. now rewrite String.eqb_refl. Qed.

Lemma builds_of_miss_other (id id' filepath : string) :
  id' ≠ id → builds_of id (miss_events id' filepath) = [].
Proof.
  intros H. unfold builds_of. simpl.
  now destruct (String.eqb_spec id' id).
Qed.

(** While the entry of [id] is in the cache and no activation for [id] is
    in flight, a step keeps both, calls the bundler for no build of [id],
    and an activation for [id] that finishes returns the entry. *)
Lemma step_stable (id text : string) (a : Action) (sys : Sys) :
  depCache (server sys) !! id = Some text →
  none_inflight id (inflight sys) →
  depCache (server (step a sys).1) !! id = Some text
  ∧ none_inflight id (inflight (step a sys).1)
  ∧ builds_of id (trace (server (step a sys).1))
    = builds_of id (trace (server sys))
  ∧ (∀ f, (step a sys).2 = Some f → f_id f = id → f_result f = Ok text).
Proof.
  intros Hc Hin. destruct a as [id' filepath | k r].
  - destruct (depCache (server sys) !! id') as [text'|] eqn:Hc'.
    + rewrite (step_call_hit id' filepath text' sys Hc'). simpl.
      repeat split; try assumption.
      * rewrite builds_of_app. simpl. apply app_nil_r.
      * intros f [= <-] Hid. simpl in *. subst id'. congruence.
    + rewrite (step_call_miss id' filepath sys Hc'). simpl.
      assert (id' ≠ id) by congruence.
      repeat split; try assumption.
      * apply Forall_app. split; [assumption|].
        constructor; [assumption | constructor].
      * rewrite builds_of_app, builds_of_miss_other by assumption.
        apply app_nil_r.
      * intros f [=].
  - destruct (inflight sys !! k) as [p|] eqn:Hk.
    2: { unfold step. rewrite Hk. simpl.
         repeat split; try assumption. intros f [=]. }
    assert (Hp : p_id p ≠ id).
    { unfold none_inflight in Hin. rewrite Forall_lookup in Hin.
      exact (Hin k p Hk). }
    assert (Hdel : none_inflight id (delete k (inflight sys))).
    { unfold none_inflight. now apply Forall_delete. }
    destruct r as [optimized|err].
    + rewrite (step_settle_ok k p optimized sys Hk). simpl.
      repeat split; try assumption.
      * now rewrite lookup_insert_ne.
      * intros f [= <-] Hid. simpl in Hid. contradiction.
    + rewrite (step_settle_throw k p err sys Hk). simpl.
      repeat split; try assumption.
      * rewrite builds_of_app. simpl. apply app_nil_r.
      * intros f [= <-] Hid. simpl in Hid. contradiction.
Qed.

Lemma run_cons (a : Action) (acts : list Action) (sys : Sys) :
  run (a :: acts) sys =
  ((run acts (step a sys).1).1,
   match (step a sys).2 with
   | Some f => f :: (run acts (step a sys).1).2
   | None => (run acts (step a sys).1).2
   end).
Proof.
  simpl. destruct (step a sys) as [sys1 o]. simpl.
  destruct (run acts sys1) as [sys2 os]. simpl. now destruct o.
Qed.

Lemma run_stable (id text : string) (acts : list Action) :
  ∀ sys,
    depCache (server sys) !! id = Some text →
    none_inflight id (inflight sys) →
    depCache (server (run acts sys).1) !! id = Some text
    ∧ builds_of id (trace (server (run acts sys).1))
      = builds_of id (trace (server sys))
    ∧ all_returned id text (run acts sys).2.
Proof.
  induction acts as [|a acts IH]; intros sys Hc Hin.
  - simpl. repeat split; try assumption. constructor.
  - destruct (step_stable id text a sys Hc Hin) as (Hc1 & Hin1 & Hb1 & Hf1).
    destruct (IH (step a sys).1 Hc1 Hin1) as (Hc2 & Hb2 & Hf2).
    rewrite run_cons. simpl. repeat split.
    + exact Hc2.
    + now rewrite Hb2.
    + destruct (step a sys).2 as [f|]; [|exact Hf2].
      constructor; [|exact Hf2]. now apply Hf1.
Qed.

(** An entry of the cache is never removed. *)
Lemma step_keeps_entry (id : string) (a : Action) (sys : Sys) :
  is_Some (depCache (server sys) !! id) →
  is_Some (depCache (server (step a sys).1) !! id).
Proof.
  intros Hc. destruct a as [id' filepath | k r].
  - destruct (depCache (server sys) !! id') as [text'|] eqn:Hc'.
    + now rewrite (step_call_hit id' filepath text' sys Hc').
    + now rewrite (step_call_miss id' filepath sys Hc').
  - destruct (inflight sys !! k) as [p|] eqn:Hk.
    2: { unfold step. now rewrite Hk. }
    destruct r as [optimized|err].
    + rewrite (step_settle_ok k p optimized sys Hk). simpl.
      rewrite lookup_insert. now destruct (decide (p_id p = id)).
    + now rewrite (step_settle_throw k p err sys Hk).
Qed.

Lemma run_keeps_entry (id : string) (acts : list Action) :
  ∀ sys,
    is_Some (depCache (server sys) !! id) →
    is_Some (depCache (server (run acts sys).1) !! id).
Proof.
  induction acts as [|a acts IH]; intros sys Hc; [exact Hc|].
  rewrite run_cons. simpl. apply IH. now apply step_keeps_entry.
Qed.

End Interleaving.

(** C5, as the specification states it, fails: two requests for [react]
    overlap, the first build settles with [v1], a later request gets [v1]
    from the cache, then the second build settles with [v2] and replaces
    the entry, and the request after that gets [v2]. *)
Lemma overlapping_build_replaces_entry :
  (run [Call "react" react_entry_file; Call "react" react_entry_file;
        Settle 0 (Ok "v1"); Call "react" react_entry_file;
        Settle 0 (Ok "v2"); Call "react" react_entry_file] idle).2
  = [returned "react" "v1"; returned "react" "v1";
     returned "react" "v2"; returned "react" "v2"]
  ∧ returned "react" "v2" ≠ returned "react" "v1".
Proof.
  split; [vm_compute; reflexivity|]. intros H. discriminate H.
Qed.

(** C5, amended. Once a build of a package has settled successfully
    while no other activation for that package is in flight, then whatever
    calls and settlements follow: the cache holds the text of that build,
    the bundler is not called again for the package, and every activation
    for the package returns that text. *)
Theorem cached_text_is_stable
    (sys : Sys) (k : nat) (p : Pending) (text : string) (acts : list Action) :
  inflight sys !! k = Some p →
  none_inflight (p_id p) (delete k (inflight sys)) →
  depCache (server (run (Settle k (Ok text) :: acts) sys).1) !! p_id p
    = Some text
  ∧ builds_of (p_id p)
      (trace (server (run (Settle k (Ok text) :: acts) sys).1))
    = builds_of (p_id p) (trace (server sys))
  ∧ all_returned (p_id p) text (run (Settle k (Ok text) :: acts) sys).2.
Proof.
  intros Hk Hin. rewrite run_cons, (step_settle_ok k p text sys Hk).
  cbn [fst snd].
  destruct (run_stable (p_id p) text acts
              {| server := {| depCache := <[p_id p := text]>
                                            (depCache (server sys));
                              trace := trace (server sys) |};
                 inflight := delete k (inflight sys) |})
    as (Hc & Hb & Hf).
  - simpl. apply lookup_insert_eq.
  - exact Hin.
  - repeat split; [exact Hc | exact Hb |].
    constructor; [reflexivity | exact Hf].
Qed.

Lemma cached_text_is_stable_react :
  let p := {| p_id := "react"; p_filepath := react_entry_file |} in
  let acts := [Call "react" react_entry_file; Call "vue" "/proj/vue.js";
               Settle 0 (Throw build_failed); Call "react" "/proj/other.js"] in
  (inflight one_build_inflight !! 0 = Some p
   ∧ none_inflight (p_id p) (delete 0 (inflight one_build_inflight)))
  ∧ (depCache
       (server (run (Settle 0 (Ok "v1") :: acts) one_build_inflight).1)
       !! p_id p = Some "v1"
     ∧ builds_of (p_id p)
         (trace (server (run (Settle 0 (Ok "v1") :: acts)
                           one_build_inflight).1))
       = builds_of (p_id p) (trace (server one_build_inflight))
     ∧ all_returned (p_id p) "v1"
         (run (Settle 0 (Ok "v1") :: acts) one_build_inflight).2).
Proof.
  intros p acts.
  assert (H1 : inflight one_build_inflight !! 0 = Some p)
    by (vm_compute; reflexivity).
  assert (H2 : none_inflight (p_id p) (delete 0 (inflight one_build_inflight)))
    by (vm_compute; constructor).
  split; [split; assumption|].
  exact (cached_text_is_stable one_build_inflight 0 p "v1" acts H1 H2).
Defined.

(** C6, as the specification states it, fails: two first requests for
    [react] that arrive before the first build settles call the bundler
    twice, and the two waiters get the texts of two different builds. *)
Lemma concurrent_misses_build_twice :
  builds_of "react"
    (trace (server (run [Call "react" react_entry_file;
                         Call "react" react_entry_file] idle).1))
  = [react_entry_file; react_entry_file]
  ∧ (run [Call "react" react_entry_file; Call "react" react_entry_file;
          Settle 0 (Ok "v1"); Settle 0 (Ok "v2")] idle).2
    = [returned "react" "v1"; returned "react" "v2"]
  ∧ returned "react" "v1" ≠ returned "react" "v2".
Proof.
  split; [vm_compute; reflexivity|].
  split; [vm_compute; reflexivity|]. intros H. discriminate H.
Qed.

(** C6, amended. Two first requests for an uncached package that arrive
    before the first build settles each call the bundler: it is called
    twice, nothing coalesces the two builds, and neither request is
    answered before a build settles. When a build settles its waiter gets
    the text of that build, and in whichever order the two builds settle
    the cache ends with the text of the build that settled last, be it the
    one requested first or the one requested second. *)
Theorem concurrent_misses_each_build
    (sys : Sys) (id filepath1 filepath2 text1 text2 : string) :
  depCache (server sys) !! id = None →
  (run [Call id filepath1; Call id filepath2] sys).2 = []
  ∧ inflight (two_misses id filepath1 filepath2 sys)
    = (inflight sys
       ++ [ {| p_id := id; p_filepath := filepath1 |};
            {| p_id := id; p_filepath := filepath2 |} ])%list
  ∧ builds_of id (trace (server (two_misses id filepath1 filepath2 sys)))
    = (builds_of id (trace (server sys)) ++ [filepath1; filepath2])%list
  ∧ (run [Settle (length (inflight sys)) (Ok text1);
          Settle (length (inflight sys)) (Ok text2)]
       (two_misses id filepath1 filepath2 sys)).2
    = [returned id text1; returned id text2]
  ∧ depCache
      (server (run [Settle (length (inflight sys)) (Ok text1);
                    Settle (length (inflight sys)) (Ok text2)]
                 (two_misses id filepath1 filepath2 sys)).1)
      !! id = Some text2
  ∧ (run [Settle (S (length (inflight sys))) (Ok text2);
          Settle (length (inflight sys)) (Ok text1)]
       (two_misses id filepath1 filepath2 sys)).2
    = [returned id text2; returned id text1]
  ∧ depCache
      (server (run [Settle (S (length (inflight sys))) (Ok text2);
                    Settle (length (inflight sys)) (Ok text1)]
                 (two_misses id filepath1 filepath2 sys)).1)
      !! id = Some text1.
Proof.
  intros Hc.
  set (a1 := {| p_id := id; p_filepath := filepath1 |}).
  set (a2 := {| p_id := id; p_filepath := filepath2 |}).
  assert (Hrun : run [Call id filepath1; Call id filepath2] sys =
    ({| server := with_events
                    (with_events (server sys) (miss_events id filepath1))
                    (miss_events id filepath2);
        inflight := ((inflight sys ++ [a1]) ++ [a2])%list |}, [])).
  { rewrite run_cons, (step_call_miss id filepath1 sys Hc). cbn [fst snd].
    rewrite run_cons, step_call_miss by exact Hc. reflexivity. }
  unfold two_misses. rewrite Hrun. cbn [fst snd inflight server].
  split; [reflexivity|]. split; [now rewrite <- app_assoc|]. split.
  { cbn [with_events trace].
    rewrite !builds_of_app, !builds_of_miss. now rewrite <- app_assoc. }
  assert (H1 : ((inflight sys ++ [a1]) ++ [a2])%list !! length (inflight sys)
               = Some a1).
  { rewrite <- app_assoc. now apply list_lookup_middle. }
  assert (H2 : ((inflight sys ++ [a1]) ++ [a2])%list
                 !! S (length (inflight sys)) = Some a2).
  { apply list_lookup_middle. rewrite length_app. simpl. lia. }
  assert (D1 : delete (length (inflight sys))
                 ((inflight sys ++ [a1]) ++ [a2])%list
               = (inflight sys ++ [a2])%list).
  { rewrite <- app_assoc. apply delete_middle. }
  assert (D2 : delete (S (length (inflight sys)))
                 ((inflight sys ++ [a1]) ++ [a2])%list
               = (inflight sys ++ [a1])%list).
  { replace (S (length (inflight sys)))
      with (length (inflight sys ++ [a1])%list)
      by (rewrite length_app; simpl; lia).
    rewrite delete_middle. apply app_nil_r. }
  assert (H3 : ∀ a, (inflight sys ++ [a])%list !! length (inflight sys)
                    = Some a)
    by (intros a; now apply list_lookup_middle).
  split; [|split; [|split]].
  - rewrite run_cons, (step_settle_ok _ a1) by exact H1.
    cbn [fst snd inflight]. rewrite D1.
    rewrite run_cons, (step_settle_ok _ a2) by (cbn [inflight]; apply H3).
    reflexivity.
  - rewrite run_cons, (step_settle_ok _ a1) by exact H1.
    cbn [fst snd inflight]. rewrite D1.
    rewrite run_cons, (step_settle_ok _ a2) by (cbn [inflight]; apply H3).
    cbn [fst snd run server depCache]. apply lookup_insert_eq.
  - rewrite run_cons, (step_settle_ok _ a2) by exact H2.
    cbn [fst snd inflight]. rewrite D2.
    rewrite run_cons, (step_settle_ok _ a1) by (cbn [inflight]; apply H3).
    reflexivity.
  - rewrite run_cons, (step_settle_ok _ a2) by exact H2.
    cbn [fst snd inflight]. rewrite D2.
    rewrite run_cons, (step_settle_ok _ a1) by (cbn [inflight]; apply H3).
    cbn [fst snd run server depCache]. apply lookup_insert_eq.
Qed.

Lemma concurrent_misses_each_build_react :
  depCache (server idle) !! "react" = None
  ∧ ((run [Call "react" react_entry_file; Call "react" "/proj/other.js"]
        idle).2 = []
     ∧ inflight (two_misses "react" react_entry_file "/proj/other.js" idle)
       = (inflight idle
          ++ [ {| p_id := "react"; p_filepath := react_entry_file |};
               {| p_id := "react"; p_filepath := "/proj/other.js" |} ])%list
     ∧ builds_of "react"
         (trace (server (two_misses "react" react_entry_file
                           "/proj/other.js" idle)))
       = (builds_of "react" (trace (server idle))
          ++ [react_entry_file; "/proj/other.js"])%list
     ∧ (run [Settle (length (inflight idle)) (Ok "v1");
             Settle (length (inflight idle)) (Ok "v2")]
          (two_misses "react" react_entry_file "/proj/other.js" idle)).2
       = [returned "react" "v1"; returned "react" "v2"]
     ∧ depCache
         (server (run [Settle (length (inflight idle)) (Ok "v1");
                       Settle (length (inflight idle)) (Ok "v2")]
                    (two_misses "react" react_entry_file "/proj/other.js"
                       idle)).1)
         !! "react" = Some "v2"
     ∧ (run [Settle (S (length (inflight idle))) (Ok "v2");
             Settle (length (inflight idle)) (Ok "v1")]
          (two_misses "react" react_entry_file "/proj/other.js" idle)).2
       = [returned "react" "v2"; returned "react" "v1"]
     ∧ depCache
         (server (run [Settle (S (length (inflight idle))) (Ok "v2");
                       Settle (length (inflight idle)) (Ok "v1")]
                    (two_misses "react" react_entry_file "/proj/other.js"
                       idle)).1)
         !! "react" = Some "v1").
Proof.
  assert (Hc : depCache (server idle) !! "react" = None) by apply lookup_empty.
  split; [exact Hc|].
  exact (concurrent_misses_each_build idle "react" react_entry_file
           "/proj/other.js" "v1" "v2" Hc).
Defined.

(** * Further properties of the server *)

(** ** Which branch a request reaches *)

Section Branches.
Import JsString.
Variable lib : Collaborators.
Variable rootDir : string.

(** Two suffixes of the same string: the shorter is a suffix of the
    longer. *)
Lemma endsWith_suffix (s p q : string) :
  endsWith s p = true → endsWith s q = true →
  String.length p <= String.length q → endsWith q p = true.
Proof.
  unfold endsWith. intros Hp Hq Hlen.
  apply andb_prop in Hp as [Hlp Hp]. apply andb_prop in Hq as [Hlq Hq].
  apply Nat.leb_le in Hlp, Hlq. apply String.eqb_eq in Hp, Hq.
  apply andb_true_intro. split; [now apply Nat.leb_le|].
  apply String.eqb_eq. rewrite <- Hq at 2. rewrite drop_drop.
  rewrite <- Hp at 2. f_equal.
  rewrite <- Hq. rewrite drop_length. lia.
Qed.

Lemma endsWith_clash (s p q : string) :
  endsWith s p = true → endsWith q p = false → endsWith p q = false →
  endsWith s q = false.
Proof.
  intros Hp Hqp Hpq. destruct (endsWith s q) eqn:Hq; [|reflexivity].
  destruct (Nat.le_ge_cases (String.length p) (String.length q)) as [H|H].
  - rewrite (endsWith_suffix s p q Hp Hq H) in Hqp. discriminate.
  - rewrite (endsWith_suffix s q p Hq Hp H) in Hpq. discriminate.
Qed.

Lemma middleware_effective (w : World) (request_url : string) :
  middleware lib rootDir w request_url =
  let url := effective_url request_url in
  if (indexOf url "@modules" >? -1)%Z then handle_modules lib rootDir w url
  else if endsWith url ".html" then handle_html rootDir w url
  else if endsWith url ".js" then handle_js lib rootDir w url
  else if endsWith url ".css" then handle_css rootDir w url
  else if endsWith url ".vue" then handle_vue lib rootDir w url
  else handle_other lib rootDir w url.
Proof. reflexivity. Qed.

Lemma effective_url_of_modules (request_url : string) :
  (indexOf request_url "@modules" >? -1)%Z = true →
  effective_url request_url = request_url.
Proof.
  intros H. unfold effective_url.
  destruct (String.eqb_spec request_url "/") as [->|_]; [discriminate H|].
  reflexivity.
Qed.

Lemma middleware_html (w : World) (request_url : string) :
  (indexOf (effective_url request_url) "@modules" >? -1)%Z = false →
  endsWith (effective_url request_url) ".html" = true →
  middleware lib rootDir w request_url
  = handle_html rootDir w (effective_url request_url).
Proof.
  intros Hm Hh. rewrite middleware_effective. cbv zeta. now rewrite Hm, Hh.
Qed.

Lemma middleware_css (w : World) (request_url : string) :
  (indexOf (effective_url request_url) "@modules" >? -1)%Z = false →
  endsWith (effective_url request_url) ".css" = true →
  middleware lib rootDir w request_url
  = handle_css rootDir w (effective_url request_url).
Proof.
  intros Hm Hc. rewrite middleware_effective. cbv zeta. rewrite Hm, Hc.
  rewrite (endsWith_clash _ ".css" ".html" Hc) by reflexivity.
  rewrite (endsWith_clash _ ".css" ".js" Hc) by reflexivity.
  reflexivity.
Qed.

Lemma middleware_other (w : World) (request_url : string) :
  (indexOf (effective_url request_url) "@modules" >? -1)%Z = false →
  endsWith (effective_url request_url) ".html" = false →
  endsWith (effective_url request_url) ".js" = false →
  endsWith (effective_url request_url) ".css" = false →
  endsWith (effective_url request_url) ".vue" = false →
  middleware lib rootDir w request_url
  = handle_other lib rootDir w (effective_url request_url).
Proof.
  intros Hm H1 H2 H3 H4. rewrite middleware_effective. cbv zeta.
  now rewrite Hm, H1, H2, H3, H4.
Qed.

Lemma middleware_contains_modules (w : World) (request_url : string) :
  (indexOf request_url "@modules" >? -1)%Z = true →
  middleware lib rootDir w request_url = handle_modules lib rootDir w request_url.
Proof.
  intros Hm. rewrite middleware_effective. cbv zeta.
  rewrite (effective_url_of_modules _ Hm). now rewrite Hm.
Qed.

End Branches.

(** ** The [.html], [.css] and [.js] branches *)

(** X1. A request for [/], or for a URL that ends in [.html] or [.css] and
    does not contain [@modules], is answered with the text of the file at
    that URL under the root ([index.html] for [/]), unchanged, with the
    content type [text/html] or [text/css]. *)
Theorem static_text_served_verbatim
    (lib : Collaborators) (rootDir : string) (w : World) (request_url : string)
    (st : Server) (ctype content : string) :
  (JsString.indexOf (effective_url request_url) "@modules" >? -1)%Z = false →
  (JsString.endsWith (effective_url request_url) ".html" = true
   ∧ ctype = "text/html")
  ∨ (JsString.endsWith (effective_url request_url) ".css" = true
     ∧ ctype = "text/css") →
  fs_readFile w (Path.join [rootDir; effective_url request_url]) = Ok content →
  middleware lib rootDir w request_url st =
  (with_events st [ReadFile (Path.join [rootDir; effective_url request_url])],
   Ok (text_response ctype content)).
Proof.
  intros Hm [[Hext ->]|[Hext ->]] Hread.
  - rewrite middleware_html by assumption.
    unfold handle_html. run_m. now rewrite Hread.
  - rewrite middleware_css by assumption.
    unfold handle_css. run_m. now rewrite Hread.
Qed.

Lemma static_text_served_verbatim_root :
  let w := one_file_world "/proj/index.html" "<h1>hello</h1>" in
  ((JsString.indexOf (effective_url "/") "@modules" >? -1)%Z = false
   ∧ ((JsString.endsWith (effective_url "/") ".html" = true
       ∧ "text/html" = "text/html")
      ∨ (JsString.endsWith (effective_url "/") ".css" = true
         ∧ "text/html" = "text/css"))
   ∧ fs_readFile w (Path.join ["/proj"; effective_url "/"])
     = Ok "<h1>hello</h1>")
  ∧ middleware react_lib "/proj" w "/" fresh_server =
    (with_events fresh_server [ReadFile "/proj/index.html"],
     Ok (text_response "text/html" "<h1>hello</h1>")).
Proof.
  intros w.
  assert (H2 : (JsString.endsWith (effective_url "/") ".html" = true
                ∧ "text/html" = "text/html")
               ∨ (JsString.endsWith (effective_url "/") ".css" = true
                  ∧ "text/html" = "text/css"))
    by (left; split; reflexivity).
  split; [repeat split; try reflexivity; exact H2|].
  exact (static_text_served_verbatim react_lib "/proj" w "/" fresh_server
           "text/html" "<h1>hello</h1>" eq_refl H2 eq_refl).
Defined.

(** X2. In the [.html], [.css] and [.vue] branches nothing catches a
    failed read: when the file cannot be read the middleware rejects with
    the error of the read, and no context is produced. *)
Theorem unguarded_read_failure_rejects
    (lib : Collaborators) (rootDir : string) (w : World) (request_url : string)
    (st : Server) (err : JsError) :
  (JsString.indexOf (effective_url request_url) "@modules" >? -1)%Z = false →
  JsString.endsWith (effective_url request_url) ".html" = true
  ∨ JsString.endsWith (effective_url request_url) ".css" = true
  ∨ JsString.endsWith (effective_url request_url) ".vue" = true →
  fs_readFile w (Path.join [rootDir; effective_url request_url]) = Throw err →
  middleware lib rootDir w request_url st =
  (with_events st [ReadFile (Path.join [rootDir; effective_url request_url])],
   Throw err).
Proof.
  intros Hm [Hext|[Hext|Hext]] Hread.
  - rewrite middleware_html by assumption.
    unfold handle_html. run_m. now rewrite Hread.
  - rewrite middleware_css by assumption.
    unfold handle_css. run_m. now rewrite Hread.
  - assert (Hu : effective_url request_url = request_url).
    { unfold effective_url.
      destruct (String.eqb_spec request_url "/") as [->|_];
        [discriminate Hext | reflexivity]. }
    rewrite Hu in *. rewrite middleware_vue by assumption.
    unfold handle_vue. run_m. now rewrite Hread.
Qed.

Lemma unguarded_read_failure_rejects_css :
  let w := one_file_world "/proj/index.html" "" in
  ((JsString.indexOf (effective_url "/app.css") "@modules" >? -1)%Z = false
   ∧ (JsString.endsWith (effective_url "/app.css") ".html" = true
      ∨ JsString.endsWith (effective_url "/app.css") ".css" = true
      ∨ JsString.endsWith (effective_url "/app.css") ".vue" = true)
   ∧ fs_readFile w (Path.join ["/proj"; effective_url "/app.css"])
     = Throw enoent)
  ∧ middleware react_lib "/proj" w "/app.css" fresh_server =
    (with_events fresh_server [ReadFile "/proj/app.css"], Throw enoent).
Proof.
  intros w.
  assert (H2 : JsString.endsWith (effective_url "/app.css") ".html" = true
               ∨ JsString.endsWith (effective_url "/app.css") ".css" = true
               ∨ JsString.endsWith (effective_url "/app.css") ".vue" = true)
    by (right; left; reflexivity).
  split; [repeat split; try reflexivity; exact H2|].
  exact (unguarded_read_failure_rejects react_lib "/proj" w "/app.css"
           fresh_server enoent eq_refl H2 eq_refl).
Defined.

(** X3. The [.js] branch never rejects: the response is the text
    [rewriteImports] makes of the file, as [application/javascript], and
    when the read, the lexer or the rewrite throws it is a context with
    status 404 and neither a body nor a content type. *)
Theorem js_branch_never_rejects
    (lib : Collaborators) (rootDir : string) (w : World) (url : string)
    (st : Server) :
  (JsString.indexOf url "@modules" >? -1)%Z = false →
  JsString.endsWith url ".js" = true →
  middleware lib rootDir w url st =
  (with_events st [ReadFile (Path.join [rootDir; url])],
   Ok match result_bind (fs_readFile w (Path.join [rootDir; url]))
              (rewriteImports lib) with
      | Ok code => text_response "application/javascript" code
      | Throw _ => status_404_only
      end).
Proof.
  intros Hm Hjs. rewrite middleware_js by assumption.
  unfold handle_js. run_m.
  destruct (fs_readFile w (Path.join [rootDir; url])) as [code|err];
    cbn [result_bind]; [|reflexivity].
  now destruct (rewriteImports lib code).
Qed.

Lemma js_branch_never_rejects_missing_file :
  let w := one_file_world "/proj/index.html" "" in
  ((JsString.indexOf "/src/gone.js" "@modules" >? -1)%Z = false
   ∧ JsString.endsWith "/src/gone.js" ".js" = true)
  ∧ middleware react_lib "/proj" w "/src/gone.js" fresh_server =
    (with_events fresh_server [ReadFile "/proj/src/gone.js"],
     Ok status_404_only).
Proof.
  intros w. split; [split; reflexivity|].
  exact (js_branch_never_rejects react_lib "/proj" w "/src/gone.js"
           fresh_server eq_refl eq_refl).
Defined.

(** X4. A [.js] module none of whose import entries has a bare name (the
    specifiers are relative or absolute, or the entry has no name) is
    served byte for byte as it is on disk, whatever the spans of the
    entries are. *)
Theorem js_without_bare_names_unchanged
    (lib : Collaborators) (rootDir : string) (w : World) (url : string)
    (st : Server) (code : string) (imports : list Lexer.ImportSpecifier) :
  (JsString.indexOf url "@modules" >? -1)%Z = false →
  JsString.endsWith url ".js" = true →
  fs_readFile w (Path.join [rootDir; url]) = Ok code →
  parse lib code = Ok imports →
  no_bare_name imports = true →
  middleware lib rootDir w url st =
  (with_events st [ReadFile (Path.join [rootDir; url])],
   Ok (text_response "application/javascript" code)).
Proof.
  intros Hm Hjs Hread Hparse Hnb.
  rewrite middleware_js by assumption.
  apply (handle_js_served lib rootDir w url st code); [exact Hread|].
  unfold rewriteImports. rewrite Hparse. cbn [result_bind].
  now rewrite rewrite_loop_no_bare.
Qed.

Lemma js_without_bare_names_unchanged_relative :
  let code := "import a from './a.js'; import b from '/src/b.js'" in
  let imports := [static_import 15 21 "./a.js"; static_import 39 48 "/src/b.js"] in
  let lib := sample_lib code imports in
  let w := one_file_world "/proj/src/main.js" code in
  ((JsString.indexOf "/src/main.js" "@modules" >? -1)%Z = false
   ∧ JsString.endsWith "/src/main.js" ".js" = true
   ∧ fs_readFile w (Path.join ["/proj"; "/src/main.js"]) = Ok code
   ∧ parse lib code = Ok imports
   ∧ no_bare_name imports = true)
  ∧ middleware lib "/proj" w "/src/main.js" fresh_server =
    (with_events fresh_server [ReadFile "/proj/src/main.js"],
     Ok (text_response "application/javascript" code)).
Proof.
  intros code imports lib w.
  split; [repeat split; reflexivity|].
  exact (js_without_bare_names_unchanged lib "/proj" w "/src/main.js"
           fresh_server code imports eq_refl eq_refl eq_refl eq_refl eq_refl).
Defined.

(** ** The [/@modules/] branch: what it answers and what it stores *)

Section ModulesBranch.
Import JsString.
Variable lib : Collaborators.
Variable rootDir : string.

Lemma handle_modules_resolved (w : World) (url filepath : string) (st : Server) :
  resolved_entry lib rootDir w (slice_from url 10) = Ok filepath →
  handle_modules lib rootDir w url st =
  match optimizeDep w (slice_from url 10) filepath
          (with_events st [ReadFile (manifest_path rootDir (slice_from url 10))])
  with
  | (st', Ok content) => (st', Ok (text_response "application/javascript" content))
  | (st', Throw _) => (st', Ok (not_found (slice_from url 10)))
  end.
Proof.
  intros Hr. unfold handle_modules, try_catch at 1, bind at 1.
  rewrite resolveBareModule_spec, Hr. unfold bind, ret.
  now destruct (optimizeDep w (slice_from url 10) filepath _) as [st' [c|e]].
Qed.

Lemma handle_modules_failed (w : World) (url : string) (st : Server)
    (err : JsError) :
  resolved_entry lib rootDir w (slice_from url 10) = Throw err →
  handle_modules lib rootDir w url st =
  (with_events st (resolve_failure_events rootDir (slice_from url 10)),
   Ok (not_found (slice_from url 10))).
Proof.
  intros Hr. unfold handle_modules, try_catch at 1, bind at 1.
  now rewrite resolveBareModule_spec, Hr.
Qed.

(** [optimizeDep] changes at most the entry of its own package. *)
Lemma optimizeDep_frame (w : World) (id id' filepath : string) (st : Server) :
  id' ≠ id →
  depCache (optimizeDep w id filepath st).1 !! id' = depCache st !! id'.
Proof.
  intros Hne. destruct (depCache st !! id) as [text|] eqn:Hc.
  - now rewrite (optimizeDep_hit w id filepath text st Hc).
  - rewrite (optimizeDep_miss w id filepath st Hc).
    destruct (esbuild_build w filepath); simpl; [|reflexivity].
    now rewrite lookup_insert_ne.
Qed.

End ModulesBranch.

(** X5. Every request whose URL contains [@modules], wherever, is handled
    by the [/@modules/] branch, and that branch never rejects: it answers
    either with a text as [application/javascript], or with status 404 and
    the body [Module not found: ] followed by the URL without its first ten
    characters. *)
Theorem modules_branch_never_rejects
    (lib : Collaborators) (rootDir : string) (w : World) (request_url : string)
    (st : Server) :
  (JsString.indexOf request_url "@modules" >? -1)%Z = true →
  ∃ st' ctx,
    middleware lib rootDir w request_url st = (st', Ok ctx)
    ∧ (ctx = not_found (JsString.slice_from request_url 10)
       ∨ ∃ content, ctx = text_response "application/javascript" content).
Proof.
  intros Hm. rewrite middleware_contains_modules by exact Hm.
  destruct (resolved_entry lib rootDir w (JsString.slice_from request_url 10))
    as [filepath|err] eqn:Hr.
  - rewrite (handle_modules_resolved lib rootDir w request_url filepath st Hr).
    destruct (optimizeDep w _ filepath _) as [st' [content|e]].
    + exists st', (text_response "application/javascript" content).
      split; [reflexivity|]. right. now exists content.
    + exists st', (not_found (JsString.slice_from request_url 10)).
      split; [reflexivity|]. now left.
  - rewrite (handle_modules_failed lib rootDir w request_url st err Hr).
    eexists _, _. split; [reflexivity|]. now left.
Qed.

Lemma modules_branch_never_rejects_anywhere :
  (JsString.indexOf "/src/@modules.js" "@modules" >? -1)%Z = true
  ∧ ∃ st' ctx,
      middleware react_lib "/proj" (react_world (Throw build_failed))
        "/src/@modules.js" fresh_server = (st', Ok ctx)
      ∧ (ctx = not_found (JsString.slice_from "/src/@modules.js" 10)
         ∨ ∃ content, ctx = text_response "application/javascript" content).
Proof.
  split; [reflexivity|].
  exact (modules_branch_never_rejects react_lib "/proj"
           (react_world (Throw build_failed)) "/src/@modules.js" fresh_server
           eq_refl).
Defined.

(** X6. The first request for a package that is not cached bundles its
    entry file, answers with the bundled text and stores it; the next
    request for the package is answered with the stored text without a
    bundler call, whatever entry file the manifest names by then and
    whatever the bundler would answer. The manifest is read both times. *)
Theorem bundled_once_then_served_from_cache
    (lib : Collaborators) (rootDir : string) (w w' : World) (name : string)
    (st : Server) (filepath filepath' optimized : string) :
  depCache st !! name = None →
  resolved_entry lib rootDir w name = Ok filepath →
  esbuild_build w filepath = Ok optimized →
  resolved_entry lib rootDir w' name = Ok filepath' →
  middleware lib rootDir w ("/@modules/" ++ name) st =
    ({| depCache := <[name := optimized]> (depCache st);
        trace := trace st
                 ++ ReadFile (manifest_path rootDir name)
                    :: miss_events name filepath |},
     Ok (text_response "application/javascript" optimized))
  ∧ middleware lib rootDir w' ("/@modules/" ++ name)
      (middleware lib rootDir w ("/@modules/" ++ name) st).1 =
    ({| depCache := <[name := optimized]> (depCache st);
        trace := (trace st
                  ++ ReadFile (manifest_path rootDir name)
                     :: miss_events name filepath)
                 ++ [ReadFile (manifest_path rootDir name); CacheHas name] |},
     Ok (text_response "application/javascript" optimized)).
Proof.
  intros Hc Hr Hb Hr'.
  assert (H1 : middleware lib rootDir w ("/@modules/" ++ name) st =
    ({| depCache := <[name := optimized]> (depCache st);
        trace := trace st
                 ++ ReadFile (manifest_path rootDir name)
                    :: miss_events name filepath |},
     Ok (text_response "application/javascript" optimized))).
  { rewrite middleware_modules.
    rewrite (handle_modules_resolved lib rootDir w _ filepath st)
      by (rewrite modules_url_id; exact Hr).
    rewrite modules_url_id, optimizeDep_miss by exact Hc.
    rewrite Hb. cbn [with_events depCache trace].
    now rewrite <- app_assoc. }
  split; [exact H1|]. rewrite H1. cbn [fst].
  rewrite middleware_modules.
  rewrite (handle_modules_resolved lib rootDir w' _ filepath')
    by (rewrite modules_url_id; exact Hr').
  rewrite modules_url_id.
  rewrite (optimizeDep_hit w' name filepath' optimized)
    by (cbn [with_events depCache]; apply lookup_insert_eq).
  rewrite with_events_app. reflexivity.
Qed.

Lemma bundled_once_then_served_from_cache_react :
  let w := react_world (Ok "export default React") in
  let w' := react_world (Throw build_failed) in
  (depCache fresh_server !! "react" = None
   ∧ resolved_entry react_lib "/proj" w "react" = Ok react_entry_file
   ∧ esbuild_build w react_entry_file = Ok "export default React"
   ∧ resolved_entry react_lib "/proj" w' "react" = Ok react_entry_file)
  ∧ (middleware react_lib "/proj" w ("/@modules/" ++ "react") fresh_server =
       ({| depCache := <["react" := "export default React"]>
                         (depCache fresh_server);
           trace := trace fresh_server
                    ++ ReadFile (manifest_path "/proj" "react")
                       :: miss_events "react" react_entry_file |},
        Ok (text_response "application/javascript" "export default React"))
     ∧ middleware react_lib "/proj" w' ("/@modules/" ++ "react")
         (middleware react_lib "/proj" w ("/@modules/" ++ "react")
            fresh_server).1 =
       ({| depCache := <["react" := "export default React"]>
                         (depCache fresh_server);
           trace := (trace fresh_server
                     ++ ReadFile (manifest_path "/proj" "react")
                        :: miss_events "react" react_entry_file)
                    ++ [ReadFile (manifest_path "/proj" "react");
                        CacheHas "react"] |},
        Ok (text_response "application/javascript" "export default React"))).
Proof.
  intros w w'.
  assert (Hc : depCache fresh_server !! "react" = None) by apply lookup_empty.
  split; [repeat split; try reflexivity; exact Hc|].
  exact (bundled_once_then_served_from_cache react_lib "/proj" w w' "react"
           fresh_server react_entry_file react_entry_file
           "export default React" Hc eq_refl eq_refl eq_refl).
Defined.

(** X7. A request whose URL does not contain [@modules] never changes the
    pre-bundle cache, whatever branch it reaches and however it ends. *)
Theorem only_modules_requests_change_cache
    (lib : Collaborators) (rootDir : string) (w : World) (request_url : string)
    (st : Server) :
  (JsString.indexOf (effective_url request_url) "@modules" >? -1)%Z = false →
  depCache (middleware lib rootDir w request_url st).1 = depCache st.
Proof.
  intros Hm. rewrite middleware_effective. cbv zeta. rewrite Hm.
  set (url := effective_url request_url).
  destruct (JsString.endsWith url ".html").
  { unfold handle_html. run_m.
    now destruct (fs_readFile w (Path.join [rootDir; url])). }
  destruct (JsString.endsWith url ".js").
  { unfold handle_js. run_m.
    destruct (fs_readFile w (Path.join [rootDir; url])) as [code|err];
      [|reflexivity].
    now destruct (rewriteImports lib code). }
  destruct (JsString.endsWith url ".css").
  { unfold handle_css. run_m.
    now destruct (fs_readFile w (Path.join [rootDir; url])). }
  destruct (JsString.endsWith url ".vue").
  { unfold handle_vue. run_m.
    destruct (fs_readFile w (Path.join [rootDir; url])) as [content|err];
      [|reflexivity].
    now destruct (template_content lib (vueParse lib content) _). }
  unfold handle_other. run_m.
  destruct (fs_stat_isFile w (Path.join [rootDir; "/src/assets/"; url]))
    as [[|]|err]; reflexivity.
Qed.

Lemma only_modules_requests_change_cache_js :
  (JsString.indexOf (effective_url "/src/main.js") "@modules" >? -1)%Z = false
  ∧ depCache
      (middleware react_lib "/proj" (react_world (Throw build_failed))
         "/src/main.js" react_cached).1
    = depCache react_cached.
Proof.
  split; [reflexivity|].
  exact (only_modules_requests_change_cache react_lib "/proj"
           (react_world (Throw build_failed)) "/src/main.js" react_cached
           eq_refl).
Defined.

(** X8. A request for [/@modules/<name>] leaves the cache entry of every
    other package as it was. *)
Theorem modules_request_keeps_other_entries
    (lib : Collaborators) (rootDir : string) (w : World) (name other : string)
    (st : Server) :
  other ≠ name →
  depCache (middleware lib rootDir w ("/@modules/" ++ name) st).1 !! other
  = depCache st !! other.
Proof.
  intros Hne. rewrite middleware_modules.
  destruct (resolved_entry lib rootDir w name) as [filepath|err] eqn:Hr.
  - rewrite (handle_modules_resolved lib rootDir w _ filepath st)
      by (rewrite modules_url_id; exact Hr).
    rewrite modules_url_id.
    pose proof (optimizeDep_frame w name other filepath
                  (with_events st [ReadFile (manifest_path rootDir name)]) Hne)
      as Hf.
    destruct (optimizeDep w name filepath _) as [st' [content|e]];
      exact Hf.
  - rewrite (handle_modules_failed lib rootDir w _ st err)
      by (rewrite modules_url_id; exact Hr).
    reflexivity.
Qed.

Lemma modules_request_keeps_other_entries_vue :
  "react" ≠ "vue"
  ∧ depCache
      (middleware react_lib "/proj" (react_world (Ok "export default Vue"))
         ("/@modules/" ++ "vue") react_cached).1 !! "react"
    = depCache react_cached !! "react".
Proof.
  assert (H : "react" ≠ "vue") by discriminate.
  split; [exact H|].
  exact (modules_request_keeps_other_entries react_lib "/proj"
           (react_world (Ok "export default Vue")) "vue" "react" react_cached H).
Defined.

(** ** The entry file the resolver chooses *)

(** X9. When the manifest has a [module] field that is a non-empty
    string, the resolver answers that file under the directory of the
    package, whatever [main] is. *)
Theorem resolver_prefers_module
    (lib : Collaborators) (rootDir : string) (w : World) (id : string)
    (st : Server) (pkg : Json) (file : string) :
  read_manifest lib rootDir w id = Ok pkg →
  get_property pkg "module" = Ok (JsJson (JStr file)) →
  JsString.nonempty file = true →
  resolveBareModule lib rootDir w id st =
  (with_events st [ReadFile (manifest_path rootDir id)],
   Ok (Path.join [nodeModulesDir rootDir; id; file])).
Proof.
  intros Hread Hmod Hne. rewrite resolveBareModule_spec.
  unfold resolved_entry. rewrite Hread. cbn [result_bind].
  unfold entry_point. rewrite Hmod. cbn [result_bind truthy]. rewrite Hne.
  reflexivity.
Qed.

Lemma resolver_prefers_module_react :
  let w := react_world (Throw build_failed) in
  let pkg := JObj [("main", JStr "index.js"); ("module", JStr "index.esm.js")] in
  (read_manifest react_lib "/proj" w "react" = Ok pkg
   ∧ get_property pkg "module" = Ok (JsJson (JStr "index.esm.js"))
   ∧ JsString.nonempty "index.esm.js" = true)
  ∧ resolveBareModule react_lib "/proj" w "react" fresh_server =
    (with_events fresh_server [ReadFile (manifest_path "/proj" "react")],
     Ok (Path.join [nodeModulesDir "/proj"; "react"; "index.esm.js"])).
Proof.
  intros w pkg. split; [repeat split; reflexivity|].
  exact (resolver_prefers_module react_lib "/proj" w "react" fresh_server pkg
           "index.esm.js" eq_refl eq_refl eq_refl).
Defined.

(** X10. When [module] is missing or falsy (an empty string, [null],
    [false], [0]), the resolver answers the [main] file if [main] is a
    non-empty string, and [index.js] if [main] is missing or falsy too;
    this holds also for a manifest that parses to a number, a string, a
    boolean or an array. *)
Theorem resolver_falls_back
    (lib : Collaborators) (rootDir : string) (w : World) (id : string)
    (st : Server) (pkg : Json) (m mn : JsValue) (file : string) :
  read_manifest lib rootDir w id = Ok pkg →
  get_property pkg "module" = Ok m →
  truthy m = false →
  get_property pkg "main" = Ok mn →
  (mn = JsJson (JStr file) ∧ JsString.nonempty file = true)
  ∨ (truthy mn = false ∧ file = "index.js") →
  resolveBareModule lib rootDir w id st =
  (with_events st [ReadFile (manifest_path rootDir id)],
   Ok (Path.join [nodeModulesDir rootDir; id; file])).
Proof.
  intros Hread Hmod Hm Hmain Hfile. rewrite resolveBareModule_spec.
  unfold resolved_entry. rewrite Hread. cbn [result_bind].
  unfold entry_point. rewrite Hmod. cbn [result_bind]. rewrite Hm, Hmain.
  cbn [result_bind]. unfold js_or.
  destruct Hfile as [[-> Hne]|[Hmn ->]].
  - cbn [truthy]. rewrite Hne. reflexivity.
  - rewrite Hmn. reflexivity.
Qed.

Lemma resolver_falls_back_index :
  let lib := main_only_lib [("name", JStr "tiny"); ("module", JStr "")] in
  let w := react_world (Throw build_failed) in
  let pkg := JObj [("name", JStr "tiny"); ("module", JStr "")] in
  (read_manifest lib "/proj" w "react" = Ok pkg
   ∧ get_property pkg "module" = Ok (JsJson (JStr ""))
   ∧ truthy (JsJson (JStr "")) = false
   ∧ get_property pkg "main" = Ok JsUndefined
   ∧ ((JsUndefined = JsJson (JStr "index.js")
       ∧ JsString.nonempty "index.js" = true)
      ∨ (truthy JsUndefined = false ∧ "index.js" = "index.js")))
  ∧ resolveBareModule lib "/proj" w "react" fresh_server =
    (with_events fresh_server [ReadFile (manifest_path "/proj" "react")],
     Ok (Path.join [nodeModulesDir "/proj"; "react"; "index.js"])).
Proof.
  intros lib w pkg.
  assert (H5 : (JsUndefined = JsJson (JStr "index.js")
                ∧ JsString.nonempty "index.js" = true)
               ∨ (truthy JsUndefined = false ∧ "index.js" = "index.js"))
    by (right; split; reflexivity).
  split; [repeat split; try reflexivity; exact H5|].
  exact (resolver_falls_back lib "/proj" w "react" fresh_server pkg
           (JsJson (JStr "")) JsUndefined "index.js"
           eq_refl eq_refl eq_refl eq_refl H5).
Defined.

(** X11. A manifest that parses to [null], or whose chosen entry field
    is truthy but not a string, makes the resolver throw a [TypeError]; the
    request is answered with status 404 like a missing manifest, and the
    bundler is not called. *)
Theorem malformed_manifest_is_404
    (lib : Collaborators) (rootDir : string) (w : World) (name : string)
    (st : Server) (pkg : Json) (m mn : JsValue) :
  read_manifest lib rootDir w name = Ok pkg →
  pkg = JNull
  ∨ (get_property pkg "module" = Ok m ∧ truthy m = true
     ∧ not_a_string m = true)
  ∨ (get_property pkg "module" = Ok m ∧ truthy m = false
     ∧ get_property pkg "main" = Ok mn ∧ truthy mn = true
     ∧ not_a_string mn = true) →
  ∃ err,
    err_name err = "TypeError"
    ∧ resolveBareModule lib rootDir w name st =
      (with_events st (resolve_failure_events rootDir name), Throw err)
    ∧ middleware lib rootDir w ("/@modules/" ++ name) st =
      (with_events st (resolve_failure_events rootDir name),
       Ok (not_found name)).
Proof.
  intros Hread Hpkg.
  assert (Hr : ∃ err, err_name err = "TypeError"
                      ∧ resolved_entry lib rootDir w name = Throw err).
  { unfold resolved_entry. rewrite Hread. cbn [result_bind].
    destruct Hpkg as [->|[(Hmod & Hm & Hs)|(Hmod & Hm & Hmain & Hmn & Hs)]].
    - eexists. split; [|reflexivity]. reflexivity.
    - unfold entry_point. rewrite Hmod. cbn [result_bind]. rewrite Hm.
      cbn [result_bind].
      destruct m as [|[| | |str| |]]; try discriminate Hs;
        try discriminate Hm; (eexists; split; [|reflexivity]; reflexivity).
    - unfold entry_point. rewrite Hmod. cbn [result_bind]. rewrite Hm, Hmain.
      cbn [result_bind]. unfold js_or. rewrite Hmn.
      destruct mn as [|[| | |str| |]]; try discriminate Hs;
        try discriminate Hmn; (eexists; split; [|reflexivity]; reflexivity). }
  destruct Hr as (err & Hname & Hr). exists err. split; [exact Hname|]. split.
  - now rewrite resolveBareModule_spec, Hr.
  - exact (handle_modules_unresolved lib rootDir w name st err Hr).
Qed.

Lemma malformed_manifest_is_404_null :
  (read_manifest odd_lib "/proj" odd_world "odd" = Ok JNull
   ∧ (JNull = JNull
      ∨ (get_property JNull "module" = Ok JsUndefined
         ∧ truthy JsUndefined = true ∧ not_a_string JsUndefined = true)
      ∨ (get_property JNull "module" = Ok JsUndefined
         ∧ truthy JsUndefined = false
         ∧ get_property JNull "main" = Ok JsUndefined
         ∧ truthy JsUndefined = true ∧ not_a_string JsUndefined = true)))
  ∧ ∃ err,
      err_name err = "TypeError"
      ∧ resolveBareModule odd_lib "/proj" odd_world "odd" fresh_server =
        (with_events fresh_server (resolve_failure_events "/proj" "odd"),
         Throw err)
      ∧ middleware odd_lib "/proj" odd_world ("/@modules/" ++ "odd")
          fresh_server =
        (with_events fresh_server (resolve_failure_events "/proj" "odd"),
         Ok (not_found "odd")).
Proof.
  assert (H2 : JNull = JNull
      ∨ (get_property JNull "module" = Ok JsUndefined
         ∧ truthy JsUndefined = true ∧ not_a_string JsUndefined = true)
      ∨ (get_property JNull "module" = Ok JsUndefined
         ∧ truthy JsUndefined = false
         ∧ get_property JNull "main" = Ok JsUndefined
         ∧ truthy JsUndefined = true ∧ not_a_string JsUndefined = true))
    by (left; reflexivity).
  split; [split; [reflexivity | exact H2]|].
  exact (malformed_manifest_is_404 odd_lib "/proj" odd_world "odd"
           fresh_server JNull JsUndefined JsUndefined eq_refl H2).
Defined.

(** ** The [.vue] branch and the assets *)

(** X12. For a component without a [<script>] block, with a
    [<script setup>] block and a template, the served module is the
    script-setup text, then on the next line the function
    [render(_ctx, _cache, $props, $setup, $data, $options)] whose body is
    the code the template compiler returned for the template and the path
    of the file. *)
Theorem served_vue_setup_and_render
    (lib : Collaborators) (rootDir : string) (w : World) (url : string)
    (st : Server) (content code : string) (setupBlock templateBlock : Vue.SFCBlock) :
  (JsString.indexOf url "@modules" >? -1)%Z = false →
  JsString.endsWith url ".vue" = true →
  fs_readFile w (Path.join [rootDir; url]) = Ok content →
  Vue.script (vueParse lib content) = None →
  Vue.scriptSetup (vueParse lib content) = Some setupBlock →
  Vue.template (vueParse lib content) = Some templateBlock →
  compileTemplate lib (Vue.content templateBlock) (Path.join [rootDir; url])
    = Ok code →
  middleware lib rootDir w url st =
  (with_events st [ReadFile (Path.join [rootDir; url])],
   Ok (text_response "application/javascript"
         (JsString.LF ++ "      " ++ Vue.content setupBlock
          ++ JsString.LF ++ "      "
          ++ ("export function render(_ctx, _cache, $props, $setup, $data, $options) { "
              ++ code ++ " }")
          ++ JsString.LF ++ "                        "))).
Proof.
  intros Hm Hvue Hread Hscript Hsetup Htpl Hcode.
  rewrite middleware_vue by assumption.
  rewrite (handle_vue_served lib rootDir w url st content
             ("export function render(_ctx, _cache, $props, $setup, $data, $options) { "
              ++ code ++ " }")) by
    (try assumption; unfold template_content; now rewrite Htpl, Hcode).
  unfold script_content. rewrite Hscript, Hsetup. reflexivity.
Qed.

Lemma served_vue_setup_and_render_example :
  let lib := vue_lib setup_component in
  let w := one_file_world "/proj/src/App.vue" "<script setup>..." in
  ((JsString.indexOf "/src/App.vue" "@modules" >? -1)%Z = false
   ∧ JsString.endsWith "/src/App.vue" ".vue" = true
   ∧ fs_readFile w (Path.join ["/proj"; "/src/App.vue"]) = Ok "<script setup>..."
   ∧ Vue.script (vueParse lib "<script setup>...") = None
   ∧ Vue.scriptSetup (vueParse lib "<script setup>...")
     = Some {| Vue.content := "const msg = 'hi'" |}
   ∧ Vue.template (vueParse lib "<script setup>...")
     = Some {| Vue.content := "<div>{{msg}}</div>" |}
   ∧ compileTemplate lib "<div>{{msg}}</div>"
       (Path.join ["/proj"; "/src/App.vue"]) = Ok "return <div>{{msg}}</div>")
  ∧ middleware lib "/proj" w "/src/App.vue" fresh_server =
    (with_events fresh_server [ReadFile "/proj/src/App.vue"],
     Ok (text_response "application/javascript"
           (JsString.LF ++ "      const msg = 'hi'"
            ++ JsString.LF ++ "      "
            ++ ("export function render(_ctx, _cache, $props, $setup, $data, $options) { "
                ++ "return <div>{{msg}}</div>" ++ " }")
            ++ JsString.LF ++ "                        "))).
Proof.
  intros lib w. split; [repeat split; reflexivity|].
  exact (served_vue_setup_and_render lib "/proj" w "/src/App.vue" fresh_server
           "<script setup>..." "return <div>{{msg}}</div>"
           {| Vue.content := "const msg = 'hi'" |}
           {| Vue.content := "<div>{{msg}}</div>" |}
           eq_refl eq_refl eq_refl eq_refl eq_refl eq_refl eq_refl).
Defined.

(** X13. When the template compiler throws, the [.vue] branch rejects
    with that error: nothing is served, not even the script part. *)
Theorem vue_compile_failure_rejects
    (lib : Collaborators) (rootDir : string) (w : World) (url : string)
    (st : Server) (content : string) (templateBlock : Vue.SFCBlock)
    (err : JsError) :
  (JsString.indexOf url "@modules" >? -1)%Z = false →
  JsString.endsWith url ".vue" = true →
  fs_readFile w (Path.join [rootDir; url]) = Ok content →
  Vue.template (vueParse lib content) = Some templateBlock →
  compileTemplate lib (Vue.content templateBlock) (Path.join [rootDir; url])
    = Throw err →
  middleware lib rootDir w url st =
  (with_events st [ReadFile (Path.join [rootDir; url])], Throw err).
Proof.
  intros Hm Hvue Hread Htpl Hcode.
  rewrite middleware_vue by assumption.
  unfold handle_vue. run_m. rewrite Hread. run_m.
  unfold template_content. now rewrite Htpl, Hcode.
Qed.

Lemma vue_compile_failure_rejects_example :
  let lib := broken_template_lib setup_component in
  let w := one_file_world "/proj/src/App.vue" "<script setup>..." in
  ((JsString.indexOf "/src/App.vue" "@modules" >? -1)%Z = false
   ∧ JsString.endsWith "/src/App.vue" ".vue" = true
   ∧ fs_readFile w (Path.join ["/proj"; "/src/App.vue"]) = Ok "<script setup>..."
   ∧ Vue.template (vueParse lib "<script setup>...")
     = Some {| Vue.content := "<div>{{msg}}</div>" |}
   ∧ compileTemplate lib "<div>{{msg}}</div>"
       (Path.join ["/proj"; "/src/App.vue"]) = Throw compile_error)
  ∧ middleware lib "/proj" w "/src/App.vue" fresh_server =
    (with_events fresh_server [ReadFile "/proj/src/App.vue"],
     Throw compile_error).
Proof.
  intros lib w. split; [repeat split; reflexivity|].
  exact (vue_compile_failure_rejects lib "/proj" w "/src/App.vue" fresh_server
           "<script setup>..." {| Vue.content := "<div>{{msg}}</div>" |}
           compile_error eq_refl eq_refl eq_refl eq_refl eq_refl).
Defined.

(** X14. A request for anything else is looked up under [src/assets] of
    the root. Something that is not a regular file gets status 404 with
    the body [Not Found]; when [stat] throws the middleware rejects with
    that error; and for a regular file the middleware rejects too, with a
    [TypeError], after it has assigned the extension of the URL, without
    its dot, as content type: no asset is ever served. *)
Theorem asset_request
    (lib : Collaborators) (rootDir : string) (w : World) (request_url : string)
    (st : Server) :
  (JsString.indexOf (effective_url request_url) "@modules" >? -1)%Z = false →
  JsString.endsWith (effective_url request_url) ".html" = false →
  JsString.endsWith (effective_url request_url) ".js" = false →
  JsString.endsWith (effective_url request_url) ".css" = false →
  JsString.endsWith (effective_url request_url) ".vue" = false →
  ∃ err,
    err_name err = "TypeError"
    ∧ middleware lib rootDir w request_url st =
      match fs_stat_isFile w
              (Path.join [rootDir; "/src/assets/"; effective_url request_url])
      with
      | Ok true =>
          (with_events st
             [Stat (Path.join [rootDir; "/src/assets/";
                               effective_url request_url]);
              AssignType (JsString.slice_from
                            (extname lib (effective_url request_url)) 1)],
           Throw err)
      | Ok false =>
          (with_events st
             [Stat (Path.join [rootDir; "/src/assets/";
                               effective_url request_url])],
           Ok {| ctx_status := Some 404; ctx_type := None;
                 ctx_body := Some (BodyText "Not Found") |})
      | Throw err' =>
          (with_events st
             [Stat (Path.join [rootDir; "/src/assets/";
                               effective_url request_url])],
           Throw err')
      end.
Proof.
  intros Hm H1 H2 H3 H4.
  exists (type_error "fs.createReadStream is not a function").
  split; [reflexivity|].
  rewrite middleware_other by assumption.
  unfold handle_other. run_m.
  destruct (fs_stat_isFile w _) as [[|]|err']; try reflexivity.
  unfold with_events. cbn [depCache trace]. now rewrite <- app_assoc.
Qed.

Lemma asset_request_regular_file :
  let w := one_file_world "/proj/src/assets/logo.png" "PNG" in
  ((JsString.indexOf (effective_url "/logo.png") "@modules" >? -1)%Z = false
   ∧ JsString.endsWith (effective_url "/logo.png") ".html" = false
   ∧ JsString.endsWith (effective_url "/logo.png") ".js" = false
   ∧ JsString.endsWith (effective_url "/logo.png") ".css" = false
   ∧ JsString.endsWith (effective_url "/logo.png") ".vue" = false)
  ∧ ∃ err,
      err_name err = "TypeError"
      ∧ middleware react_lib "/proj" w "/logo.png" fresh_server =
        (with_events fresh_server
           [Stat "/proj/src/assets/logo.png";
            AssignType (JsString.slice_from (extname react_lib "/logo.png") 1)],
         Throw err).
Proof.
  intros w. split; [repeat split; reflexivity|].
  exact (asset_request react_lib "/proj" w "/logo.png" fresh_server
           eq_refl eq_refl eq_refl eq_refl eq_refl).
Defined.

(** ** The earlier revision *)

Section EarlierRevision.
Import JsString.

Lemma slash_is_not_relative (url : string) :
  startsWith url "/" = true →
  startsWith url "./" || startsWith url "../" = false.
Proof.
  destruct url as [|c url]; [discriminate|]. cbn [startsWith].
  intros H. apply andb_prop in H as [H _].
  apply Ascii.eqb_eq in H. subst c. reflexivity.
Qed.

End EarlierRevision.

(** X15. In the earlier revision the branches are out of reach of every
    request whose URL begins with a slash: the file at the URL is read,
    and then nothing is assigned to the context; when the file cannot be
    read the middleware rejects, whatever the URL is. *)
Theorem earlier_dispatch_out_of_reach
    (lib : Collaborators) (rootDir cwd : string) (w : World)
    (request_url : string) (st : Server) :
  JsString.startsWith (effective_url request_url) "/" = true →
  Earlier.middleware lib rootDir cwd w request_url st =
  (with_events st [ReadFile (Path.join [rootDir; effective_url request_url])],
   match fs_readFile w (Path.join [rootDir; effective_url request_url]) with
   | Ok _ => Ok untouched
   | Throw err => Throw err
   end).
Proof.
  intros H. unfold Earlier.middleware. fold (effective_url request_url).
  cbv zeta. rewrite (slash_is_not_relative _ H). run_m.
  now destruct (fs_readFile w _).
Qed.

Lemma earlier_dispatch_out_of_reach_js :
  let code := "import foo from './foo.js'" in
  let lib := sample_lib code [static_import 17 25 "./foo.js"] in
  let w := one_file_world "/proj/src/app.js" code in
  JsString.startsWith (effective_url "/src/app.js") "/" = true
  ∧ Earlier.middleware lib "/proj" "/proj" w "/src/app.js" fresh_server =
    (with_events fresh_server [ReadFile "/proj/src/app.js"], Ok untouched).
Proof.
  intros code lib w. split; [reflexivity|].
  exact (earlier_dispatch_out_of_reach lib "/proj" "/proj" w "/src/app.js"
           fresh_server eq_refl).
Defined.

(** X16. In the earlier revision a request whose URL begins with [./]
    and ends in [.js] is answered with what [resolveImports] makes of the
    file, called with the directory of the file; nothing catches an
    exception of the lexer or of the edits, which rejects the request. *)
Theorem earlier_js_resolves_imports
    (lib : Collaborators) (rootDir cwd : string) (w : World)
    (url : string) (st : Server) (content : string) :
  JsString.startsWith url "./" = true →
  JsString.endsWith url ".js" = true →
  fs_readFile w (Path.join [rootDir; url]) = Ok content →
  Earlier.middleware lib rootDir cwd w url st =
  (with_events st [ReadFile (Path.join [rootDir; url])],
   match resolveImports lib cwd content
           (Path.dirname (Path.join [rootDir; url])) with
   | Ok code => Ok (text_response "application/javascript" code)
   | Throw err => Throw err
   end).
Proof.
  intros Hrel Hjs Hread. unfold Earlier.middleware.
  destruct (String.eqb_spec url "/") as [->|_]; [discriminate Hrel|].
  cbv zeta. rewrite Hrel. cbn [orb]. unfold Earlier.dispatch.
  rewrite Hjs.
  rewrite (endsWith_clash url ".js" ".html" Hjs) by reflexivity.
  run_m. rewrite Hread. run_m.
  now destruct (resolveImports lib cwd content _).
Qed.

Lemma earlier_js_resolves_imports_foo :
  let code := "import foo from './foo.js'" in
  let lib := sample_lib code [static_import 17 25 "./foo.js"] in
  let w := one_file_world "/proj/src/app.js" code in
  (JsString.startsWith "./src/app.js" "./" = true
   ∧ JsString.endsWith "./src/app.js" ".js" = true
   ∧ fs_readFile w (Path.join ["/proj"; "./src/app.js"]) = Ok code)
  ∧ Earlier.middleware lib "/proj" "/proj" w "./src/app.js" fresh_server =
    (with_events fresh_server [ReadFile "/proj/src/app.js"],
     Ok (text_response "application/javascript" "import foo from '/src/foo.js'")).
Proof.
  intros code lib w. split; [repeat split; reflexivity|].
  exact (earlier_js_resolves_imports lib "/proj" "/proj" w "./src/app.js"
           fresh_server code eq_refl eq_refl eq_refl).
Defined.

(** ** Interleaved activations: what no schedule can do *)

(** X18. An entry of the pre-bundle cache is never removed: a package
    that has an entry has one after any schedule of calls and
    settlements, successful or failed. *)
Theorem cache_entry_never_removed
    (id : string) (acts : list Action) (sys : Sys) :
  is_Some (depCache (server sys) !! id) →
  is_Some (depCache (server (run acts sys).1) !! id).
Proof.
  revert sys. induction acts as [|a acts IH]; intros sys Hc; [exact Hc|].
  rewrite run_cons. cbn [fst]. apply IH.
  exact (step_keeps_entry id a sys Hc).
Qed.

Lemma cache_entry_never_removed_react :
  is_Some (depCache (server {| server := react_cached; inflight := [] |})
             !! "react")
  ∧ is_Some
      (depCache
         (server (run [Call "vue" "/proj/vue.js"; Settle 0 (Throw build_failed);
                       Call "react" react_entry_file;
                       Call "vue" "/proj/vue.js"; Settle 0 (Ok "v")]
                    {| server := react_cached; inflight := [] |}).1)
         !! "react").
Proof.
  assert (H : is_Some (depCache
                         (server {| server := react_cached; inflight := [] |})
                         !! "react"))
    by (eexists; apply lookup_singleton_eq).
  split; [exact H|].
  exact (cache_entry_never_removed "react" _ _ H).
Defined.

(** X19. The cache never holds a text that no build returned: a text
    found in the cache after a schedule was there at the start, or is the
    text with which an activation for that package finished during the
    schedule. The text of a failed build is never stored. *)
Theorem cached_text_was_built
    (id text : string) (acts : list Action) (sys : Sys) :
  depCache (server (run acts sys).1) !! id = Some text →
  depCache (server sys) !! id = Some text
  ∨ returned id text ∈ (run acts sys).2.
Proof.
  revert sys. induction acts as [|a acts IH]; intros sys H.
  - now left.
  - rewrite run_cons in *. cbn [fst snd] in *.
    destruct (IH _ H) as [Hc|Hin].
    + destruct a as [id' filepath | k r].
      * left. destruct (depCache (server sys) !! id') as [text'|] eqn:Hc'.
        -- now rewrite (step_call_hit id' filepath text' sys Hc') in Hc.
        -- now rewrite (step_call_miss id' filepath sys Hc') in Hc.
      * destruct (inflight sys !! k) as [p|] eqn:Hk.
        2: { left. unfold step in Hc. now rewrite Hk in Hc. }
        destruct r as [optimized|err].
        -- rewrite (step_settle_ok k p optimized sys Hk) in *.
           cbn [fst snd server depCache] in *.
           rewrite lookup_insert in Hc.
           destruct (decide (p_id p = id)) as [Heq|Hne]; [|now left].
           right. injection Hc as ->. rewrite Heq. apply list_elem_of_here.
        -- left. now rewrite (step_settle_throw k p err sys Hk) in Hc.
    + right. destruct (step a sys).2; [|exact Hin].
      now apply list_elem_of_further.
Qed.

Lemma cached_text_was_built_react :
  depCache
    (server (run [Call "react" react_entry_file; Settle 0 (Ok "v1")] idle).1)
    !! "react" = Some "v1"
  ∧ (depCache (server idle) !! "react" = Some "v1"
     ∨ returned "react" "v1"
       ∈ (run [Call "react" react_entry_file; Settle 0 (Ok "v1")] idle).2).
Proof.
  assert (H : depCache
                (server (run [Call "react" react_entry_file;
                              Settle 0 (Ok "v1")] idle).1)
                !! "react" = Some "v1") by (vm_compute; reflexivity).
  split; [exact H|].
  exact (cached_text_was_built "react" "v1" _ idle H).
Defined.

(** ** [resolveImports] on an empty specifier, and the URLs that
    [rewriteImports] writes *)

Section RewriterEdges.
Import JsString.

Lemma resolve_loop_throw (cwd code dir : string)
    (imports : list Lexer.ImportSpecifier) (err : JsError) :
  fold_left (resolve_step cwd code dir) imports (Throw err) = Throw err.
Proof. induction imports as [|imp rest IH]; [reflexivity | exact IH]. Qed.

Lemma resolve_loop_skipped (cwd code dir : string)
    (imports : list Lexer.ImportSpecifier) (m : MagicString.t) :
  forallb (skipped_by_resolve code) imports = true →
  fold_left (resolve_step cwd code dir) imports (Ok m) = Ok m.
Proof.
  induction imports as [|imp rest IH]; simpl; intros H; [reflexivity|].
  apply andb_prop in H as [Himp Hrest].
  unfold skipped_by_resolve in Himp.
  destruct (Lexer.d imp >? -1)%Z; [exact (IH Hrest)|].
  cbn [orb] in Himp. rewrite Himp. exact (IH Hrest).
Qed.

End RewriterEdges.

(** X20. [resolveImports] throws on an empty specifier: when the first
    entry that is neither dynamic nor absolute has an empty span (as for
    [import '']), the edit is refused and the whole call fails, whatever
    entries follow; no text is returned. *)
Theorem resolveImports_empty_specifier_throws
    (lib : Collaborators) (cwd code currentDir : string)
    (before : list Lexer.ImportSpecifier) (imp : Lexer.ImportSpecifier)
    (after : list Lexer.ImportSpecifier) :
  parse lib code = Ok (before ++ imp :: after)%list →
  forallb (skipped_by_resolve code) before = true →
  (Lexer.d imp >? -1)%Z = false →
  Lexer.s imp = Lexer.e imp →
  Lexer.e imp <= String.length code →
  ∃ err, resolveImports lib cwd code currentDir = Throw err.
Proof.
  intros Hp Hskip Hd Hse He. unfold resolveImports. rewrite Hp.
  cbn [result_bind].
  destruct (before ++ imp :: after)%list as [|x l] eqn:Hl.
  { now destruct before. }
  rewrite <- Hl. rewrite fold_left_app.
  rewrite resolve_loop_skipped by exact Hskip.
  cbn [fold_left]. unfold resolve_step at 2. cbn [result_bind].
  rewrite Hd, <- Hse. unfold JsString.substring.
  rewrite Nat.min_id, Nat.max_id, slice_refl. cbn [JsString.startsWith].
  unfold MagicString.overwrite. cbn [MagicString.original MagicString.new].
  replace (String.length code <? Lexer.s imp)%nat with false
    by (symmetry; apply Nat.ltb_ge; lia).
  rewrite Nat.eqb_refl. eexists. now rewrite resolve_loop_throw.
Qed.

Lemma resolveImports_empty_specifier_throws_example :
  let code := "import ''" in
  let imp := static_import 8 8 "" in
  let lib := sample_lib code [imp] in
  (parse lib code = Ok ([] ++ imp :: [])%list
   ∧ forallb (skipped_by_resolve code) [] = true
   ∧ (Lexer.d imp >? -1)%Z = false
   ∧ Lexer.s imp = Lexer.e imp
   ∧ Lexer.e imp <= String.length code)
  ∧ ∃ err, resolveImports lib "/proj" code "/proj/src" = Throw err.
Proof.
  intros code imp lib.
  assert (H5 : Lexer.e imp <= String.length code) by (vm_compute; lia).
  split; [repeat split; try reflexivity; exact H5|].
  exact (resolveImports_empty_specifier_throws lib "/proj" code "/proj/src"
           [] imp [] eq_refl eq_refl eq_refl eq_refl H5).
Defined.

(** X21. The specifier [rewriteImports] writes for a bare name is a URL
    the server itself answers for that package: in a module with one
    import, of a bare name, the specifier becomes [/@modules/<name>], and a
    request for that URL begins by reading the manifest of [<name>] under
    [node_modules]. *)
Theorem rewritten_specifier_reaches_package
    (lib : Collaborators) (rootDir : string)
    (before specifier after name : string) (d : Z) :
  parse lib (before ++ specifier ++ after)
  = Ok [ {| Lexer.s := String.length before;
            Lexer.e := String.length before + String.length specifier;
            Lexer.d := d; Lexer.n := Some name |} ] →
  is_bare name = true →
  rewriteImports lib (before ++ specifier ++ after)
  = Ok (before ++ ("/@modules/" ++ name) ++ after)
  ∧ ∀ (w : World) (st : Server),
      ∃ evs,
        trace (middleware lib rootDir w ("/@modules/" ++ name) st).1
        = (trace st
           ++ ReadFile (Path.join [nodeModulesDir rootDir; name; "package.json"])
              :: evs)%list.
Proof.
  intros Hp Hb. split.
  - rewrite (rewriteImports_one_bare lib before specifier after name d Hp Hb).
    now rewrite append_assoc.
  - intros w st. apply handle_modules_reads_manifest_first.
Qed.

Lemma rewritten_specifier_reaches_package_lodash :
  let lib := sample_lib ("import _ from '" ++ "lodash" ++ "'")
               [static_import 15 21 "lodash"] in
  (parse lib ("import _ from '" ++ "lodash" ++ "'")
   = Ok [ {| Lexer.s := String.length "import _ from '";
             Lexer.e := String.length "import _ from '" + String.length "lodash";
             Lexer.d := -1; Lexer.n := Some "lodash" |} ]
   ∧ is_bare "lodash" = true)
  ∧ (rewriteImports lib ("import _ from '" ++ "lodash" ++ "'")
     = Ok ("import _ from '" ++ ("/@modules/" ++ "lodash") ++ "'")
     ∧ ∀ (w : World) (st : Server),
         ∃ evs,
           trace (middleware lib "/proj" w ("/@modules/" ++ "lodash") st).1
           = (trace st
              ++ ReadFile (Path.join [nodeModulesDir "/proj"; "lodash";
                                      "package.json"])
                 :: evs)%list).
Proof.
  intros lib. split; [split; reflexivity|].
  exact (rewritten_specifier_reaches_package lib "/proj" "import _ from '"
           "lodash" "'" "lodash" (-1) eq_refl eq_refl).
Defined.

(** X22. Nothing coalesces overlapping misses, however many: when
    requests for an uncached package arrive one after another before any
    build settles, every one of them calls the bundler with its own entry
    file and waits; none is answered, and the cache is unchanged. *)
Theorem overlapping_misses_all_build
    (id : string) (filepaths : list string) (sys : Sys) :
  depCache (server sys) !! id = None →
  (run (map (Call id) filepaths) sys).2 = []
  ∧ inflight (run (map (Call id) filepaths) sys).1
    = (inflight sys
       ++ map (fun filepath => {| p_id := id; p_filepath := filepath |})
            filepaths)%list
  ∧ builds_of id (trace (server (run (map (Call id) filepaths) sys).1))
    = (builds_of id (trace (server sys)) ++ filepaths)%list
  ∧ depCache (server (run (map (Call id) filepaths) sys).1)
    = depCache (server sys).
Proof.
  revert sys. induction filepaths as [|filepath rest IH]; intros sys Hc.
  - simpl. now rewrite !app_nil_r.
  - cbn [map]. rewrite run_cons, (step_call_miss id filepath sys Hc).
    cbn [fst snd].
    destruct (IH {| server := with_events (server sys) (miss_events id filepath);
                    inflight := inflight sys
                                ++ [ {| p_id := id; p_filepath := filepath |} ] |})
      as (Hdone & Hin & Hb & Hcache); [exact Hc|].
    repeat split.
    + exact Hdone.
    + rewrite Hin. cbn [inflight]. now rewrite <- app_assoc.
    + rewrite Hb. cbn [server with_events trace].
      rewrite builds_of_app, builds_of_miss. now rewrite <- app_assoc.
    + rewrite Hcache. reflexivity.
Qed.

Lemma overlapping_misses_all_build_three :
  let filepaths := [react_entry_file; react_entry_file; "/proj/other.js"] in
  depCache (server idle) !! "react" = None
  ∧ ((run (map (Call "react") filepaths) idle).2 = []
     ∧ inflight (run (map (Call "react") filepaths) idle).1
       = (inflight idle
          ++ map (fun filepath => {| p_id := "react"; p_filepath := filepath |})
               filepaths)%list
     ∧ builds_of "react"
         (trace (server (run (map (Call "react") filepaths) idle).1))
       = (builds_of "react" (trace (server idle)) ++ filepaths)%list
     ∧ depCache (server (run (map (Call "react") filepaths) idle).1)
       = depCache (server idle)).
Proof.
  intros filepaths.
  assert (Hc : depCache (server idle) !! "react" = None) by apply lookup_empty.
  split; [exact Hc|].
  exact (overlapping_misses_all_build "react" filepaths idle Hc).
Defined.
